(** * kokushi-app: identifier parser, filter engine and progress tracker

    A shallow embedding of
      - [src/store/useProgressStore.ts]   (module [Progress]),
      - [src/services/questionService.ts] (module [QuestionService]),
    and the properties of the specification checked against them.

    JavaScript strings are sequences of UTF-16 code units; they are
    modelled as [list N].  JavaScript numbers that the code only uses as
    integers (counters, years, question numbers) are modelled as [Z]. *)

From Stdlib Require Import ZArith NArith List Bool Lia Ascii String.
From stdpp Require Import base decidable countable gmap list strings.
From stdpp Require Import sorting.

Import ListNotations.
Open Scope Z_scope.

(** ** JavaScript strings *)

Module JS.

Definition jsstring : Type := list N.

(** An ASCII literal as a JavaScript string. *)
Definition js (s : string) : jsstring :=
  map N_of_ascii (list_ascii_of_string s).

(** *** Character classes of the regular expressions *)

(** [\s], which is also the set [String.prototype.trim] strips:
    WhiteSpace and LineTerminator of ECMAScript. *)
Definition isWhiteSpace (c : N) : bool :=
  ((9 <=? c) && (c <=? 13) || (c =? 32) || (c =? 0xA0) || (c =? 0x1680)
   || (0x2000 <=? c) && (c <=? 0x200A) || (c =? 0x2028) || (c =? 0x2029)
   || (c =? 0x202F) || (c =? 0x205F) || (c =? 0x3000) || (c =? 0xFEFF))%N.

(** [\d] *)
Definition isDigit (c : N) : bool := ((48 <=? c) && (c <=? 57))%N.

(** [[\s\-_]] *)
Definition isSeparator (c : N) : bool :=
  (isWhiteSpace c || (c =? 45) || (c =? 95))%N.

(** [[a-dA-D]]; under the [i] flag the class is the same set, as no
    other code unit has its canonical form among A-D. *)
Definition isSessionLetter (c : N) : bool :=
  ((97 <=? c) && (c <=? 100) || (65 <=? c) && (c <=? 68))%N.

(** [[\s　]]: white space or U+3000, the full-width space. *)
Definition isKeywordGap (c : N) : bool := (isWhiteSpace c || (c =? 0x3000))%N.

(** *** String methods *)

(** A string in a condition: [""] is falsy, every other string truthy. *)
Definition truthy (s : jsstring) : bool :=
  match s with [] => false | _ :: _ => true end.

Fixpoint trimStart (s : jsstring) : jsstring :=
  match s with
  | [] => []
  | c :: s' => if isWhiteSpace c then trimStart s' else s
  end.

Fixpoint trimEnd (s : jsstring) : jsstring :=
  match s with
  | [] => []
  | c :: s' =>
    match trimEnd s' with
    | [] => if isWhiteSpace c then [] else [c]
    | t => c :: t
    end
  end.

(** [s.trim()] *)
Definition trim (s : jsstring) : jsstring := trimEnd (trimStart s).

(** [s.startsWith(t)] *)
Fixpoint startsWith (s t : jsstring) {struct t} : bool :=
  match t, s with
  | [], _ => true
  | _ :: _, [] => false
  | c :: t', d :: s' => (c =? d)%N && startsWith s' t'
  end.

(** [s.includes(t)]: [t] starts at some position of [s]. *)
Fixpoint includes (s t : jsstring) : bool :=
  startsWith s t
  || match s with
     | [] => false
     | _ :: s' => includes s' t
     end.

(** [s.split(/[cls]+/)] for a class [cls]: the pieces between the
    maximal runs of [cls]; a run at either end leaves an empty piece
    there.  [cur] is the piece being read, [inGap] says that the last
    unit read was in a run. *)
Fixpoint splitGo (cls : N -> bool) (inGap : bool) (cur : jsstring)
    (s : jsstring) : list jsstring :=
  match s with
  | [] => [cur]
  | c :: s' =>
    if cls c then
      if inGap then splitGo cls true [] s'
      else cur :: splitGo cls true [] s'
    else splitGo cls false (cur ++ [c]) s'
  end.

Definition split (cls : N -> bool) (s : jsstring) : list jsstring :=
  match s with
  | [] => [[]]
  | _ => splitGo cls false [] s
  end.

(** [parseInt(s)] on a string that starts with its digits: the decimal
    value of the leading digits.  (Every call of the source passes a
    non-empty capture group of [\d].) *)
Definition digitValue (c : N) : Z := Z.of_N c - 48.

Fixpoint parseDigits (acc : Z) (s : jsstring) : Z :=
  match s with
  | [] => acc
  | c :: s' => if isDigit c then parseDigits (acc * 10 + digitValue c) s' else acc
  end.

Definition parseInt (s : jsstring) : Z := parseDigits 0 s.

(** *** Case conversion

    On a string of ASCII units [toLowerCase] and [toUpperCase] map the
    26 letters unit by unit.  On any other string they are the host's
    Unicode case conversion, which is a parameter of the development. *)
Class Host : Type := {
  unicodeLower : jsstring -> jsstring;
  unicodeUpper : jsstring -> jsstring
}.

Definition isAscii (c : N) : bool := (c <? 128)%N.

Definition asciiLower (c : N) : N :=
  if ((65 <=? c) && (c <=? 90))%N then (c + 32)%N else c.

Definition asciiUpper (c : N) : N :=
  if ((97 <=? c) && (c <=? 122))%N then (c - 32)%N else c.

Definition toLowerCase `{Host} (s : jsstring) : jsstring :=
  if forallb isAscii s then map asciiLower s else unicodeLower s.

Definition toUpperCase `{Host} (s : jsstring) : jsstring :=
  if forallb isAscii s then map asciiUpper s else unicodeUpper s.

(** A host whose conversion outside ASCII does nothing; used where a
    concrete host is needed to run the code. *)
Definition asciiHost : Host :=
  {| unicodeLower := fun s => s; unicodeUpper := fun s => s |}.

(** *** Regular expressions

    Every pattern of the source has the shape [^ p1 p2 ... pn $] where
    each [pi] is a character class under a greedy quantifier, in a
    capture group or not. *)
Record Piece : Type := mkPiece {
  pclass : N -> bool;
  pmin : nat;
  pmax : option nat;
  pgroup : bool
}.

(** Length of the longest prefix of [s] in [cls], at most [bound]. *)
Fixpoint runLength (cls : N -> bool) (bound : option nat) (s : jsstring)
  : nat :=
  match s with
  | [] => O
  | c :: s' =>
    if cls c then
      match bound with
      | None => S (runLength cls None s')
      | Some O => O
      | Some (S b) => S (runLength cls (Some b) s')
      end
    else O
  end.

(** The greedy choice of a quantifier: the first count, from [n] down
    to [lo], at which [try] succeeds. *)
Fixpoint firstFrom {A : Type} (try : nat -> option A) (lo n : nat)
  : option A :=
  match (if (lo <=? n)%nat then try n else None) with
  | Some r => Some r
  | None => match n with O => None | S n' => firstFrom try lo n' end
  end.

(** Backtracking match of [^ pieces $] against the whole of [s]: each
    piece first takes as many units as it can and gives them back one by
    one while the rest fails.  The result is the list of the captured
    groups, in order. *)
Fixpoint matchPieces (pieces : list Piece) (s : jsstring)
  : option (list jsstring) :=
  match pieces with
  | [] => match s with [] => Some [] | _ :: _ => None end
  | p :: rest =>
    firstFrom
      (fun n =>
         match matchPieces rest (drop n s) with
         | Some caps => Some (if pgroup p then take n s :: caps else caps)
         | None => None
         end)
      (pmin p) (runLength (pclass p) (pmax p) s)
  end.

(** *** What the functions above are meant to compute *)

(** A segment a piece may take: units of its class, as many as its
    quantifier allows. *)
Definition fitsPiece (p : Piece) (seg : jsstring) : Prop :=
  forallb (pclass p) seg = true
  /\ (pmin p <= length seg)%nat
  /\ match pmax p with Some m => (length seg <= m)%nat | None => True end.

(** [Splits pieces s caps]: [s] is cut into one segment for each piece,
    and [caps] are the segments of the capture groups. *)
Inductive Splits : list Piece -> jsstring -> list jsstring -> Prop :=
| splits_nil : Splits [] [] []
| splits_cons p rest seg s caps :
    fitsPiece p seg ->
    Splits rest s caps ->
    Splits (p :: rest) (seg ++ s) (if pgroup p then seg :: caps else caps).

(** The number a string of decimal digits denotes. *)
Fixpoint decimalValue (ds : jsstring) : Z :=
  match ds with
  | [] => 0
  | d :: ds' => digitValue d * 10 ^ Z.of_nat (length ds') + decimalValue ds'
  end.

(** [t] occurs in [s]. *)
Definition occursIn (t s : jsstring) : Prop :=
  exists pre post, s = pre ++ t ++ post.

(** The next unit of [s], if any, is not in [cls]. *)
Definition stopsAt (cls : N -> bool) (s : jsstring) : bool :=
  match s with [] => true | c :: _ => negb (cls c) end.

End JS.

Import JS.

(** ** The progress store ([useProgressStore.ts]) *)

Module Progress.

(** [interface ProgressState], data fields. *)
Record ProgressState : Type := mkProgress {
  currentStreak : Z;
  lastStudyDate : option jsstring;
  longestStreak : Z;
  todayAnswered : Z;
  todayCorrect : Z;
  dailyGoal : Z;
  totalAnswered : Z;
  totalCorrect : Z;
  answeredQuestions : gset jsstring
}.

(** The system clock as one call of an action sees it: the results of
    [getToday()] and [getYesterday()], both ["YYYY-MM-DD"] strings.  An
    action runs synchronously from its first statement to its last, and
    the date is taken not to change in between: [recordAnswer] and the
    [checkAndUpdateStreak] it calls read the same clock.  The two
    strings are not tied to each other here; the lemmas that need
    yesterday to differ from today say so. *)
Record Clock : Type := mkClock {
  getToday : jsstring;
  getYesterday : jsstring
}.

(** The initial values of the store. *)
Definition initialState : ProgressState :=
  {| currentStreak := 0;
     lastStudyDate := None;
     longestStreak := 0;
     todayAnswered := 0;
     todayCorrect := 0;
     dailyGoal := 20;
     totalAnswered := 0;
     totalCorrect := 0;
     answeredQuestions := ∅ |}.

(** [isCorrect ? 1 : 0] *)
Definition oneIf (b : bool) : Z := if b then 1 else 0.

(** [state.lastStudyDate === d] *)
Definition dateIs (s : ProgressState) (d : jsstring) : bool :=
  bool_decide (lastStudyDate s = Some d).

(** [checkAndUpdateStreak], lines 85-114. *)
Definition checkAndUpdateStreak (clk : Clock) (state : ProgressState)
  : ProgressState :=
  let today := getToday clk in
  let yesterday := getYesterday clk in
  if dateIs state today then state
  else if dateIs state yesterday then
    let newStreak := currentStreak state + 1 in
    {| currentStreak := newStreak;
       lastStudyDate := lastStudyDate state;
       longestStreak := Z.max (longestStreak state) newStreak;
       todayAnswered := todayAnswered state;
       todayCorrect := todayCorrect state;
       dailyGoal := dailyGoal state;
       totalAnswered := totalAnswered state;
       totalCorrect := totalCorrect state;
       answeredQuestions := answeredQuestions state |}
  else match lastStudyDate state with
  | None =>
    {| currentStreak := 1;
       lastStudyDate := lastStudyDate state;
       longestStreak := Z.max (longestStreak state) 1;
       todayAnswered := todayAnswered state;
       todayCorrect := todayCorrect state;
       dailyGoal := dailyGoal state;
       totalAnswered := totalAnswered state;
       totalCorrect := totalCorrect state;
       answeredQuestions := answeredQuestions state |}
  | Some _ =>
    {| currentStreak := 1;
       lastStudyDate := lastStudyDate state;
       longestStreak := longestStreak state;
       todayAnswered := todayAnswered state;
       todayCorrect := todayCorrect state;
       dailyGoal := dailyGoal state;
       totalAnswered := totalAnswered state;
       totalCorrect := totalCorrect state;
       answeredQuestions := answeredQuestions state |}
  end.

(** The [set((prev) => ...)] of [recordAnswer], lines 64-73: the store
    after the counters, the date and the id set are written and before
    the streak is looked at. *)
Definition recordCounters (clk : Clock) (questionId : jsstring)
    (isCorrect : bool) (prev : ProgressState) : ProgressState :=
  let today := getToday clk in
  let isNewDay := negb (dateIs prev today) in
  {| currentStreak := currentStreak prev;
     lastStudyDate := Some today;
     longestStreak := longestStreak prev;
     todayAnswered := if isNewDay then 1 else todayAnswered prev + 1;
     todayCorrect :=
       if isNewDay then oneIf isCorrect
       else todayCorrect prev + oneIf isCorrect;
     dailyGoal := dailyGoal prev;
     totalAnswered := totalAnswered prev + 1;
     totalCorrect := totalCorrect prev + oneIf isCorrect;
     answeredQuestions := answeredQuestions prev ∪ {[ questionId ]} |}.

(** [recordAnswer], lines 57-77: the write above, then
    [get().checkAndUpdateStreak()] on the store as it is by then. *)
Definition recordAnswer (clk : Clock) (questionId : jsstring)
    (isCorrect : bool) (state : ProgressState) : ProgressState :=
  checkAndUpdateStreak clk (recordCounters clk questionId isCorrect state).

(** [setDailyGoal], lines 80-82. *)
Definition setDailyGoal (goal : Z) (state : ProgressState) : ProgressState :=
  {| currentStreak := currentStreak state;
     lastStudyDate := lastStudyDate state;
     longestStreak := longestStreak state;
     todayAnswered := todayAnswered state;
     todayCorrect := todayCorrect state;
     dailyGoal := goal;
     totalAnswered := totalAnswered state;
     totalCorrect := totalCorrect state;
     answeredQuestions := answeredQuestions state |}.

(** The three actions of the store, each with the clock it runs under. *)
Inductive Action : Type :=
| RecordAnswer (clk : Clock) (questionId : jsstring) (isCorrect : bool)
| SetDailyGoal (goal : Z)
| CheckAndUpdateStreak (clk : Clock).

Definition step (a : Action) (s : ProgressState) : ProgressState :=
  match a with
  | RecordAnswer clk q b => recordAnswer clk q b s
  | SetDailyGoal g => setDailyGoal g s
  | CheckAndUpdateStreak clk => checkAndUpdateStreak clk s
  end.

(** A session: actions applied left to right. *)
Definition run (acts : list Action) (s : ProgressState) : ProgressState :=
  fold_left (fun st a => step a st) acts s.

(** States the store can be in: the initial one and whatever the actions
    make of a reachable one. *)
Inductive reachable : ProgressState -> Prop :=
| reach_init : reachable initialState
| reach_step a s : reachable s -> reachable (step a s).

(** An action that is not [setDailyGoal] with a goal of 0 or less. *)
Definition positiveGoal (a : Action) : Prop :=
  match a with SetDailyGoal g => 0 < g | _ => True end.

(** The streak invariant of the data model. *)
Definition streakInvariant (s : ProgressState) : Prop :=
  currentStreak s <= longestStreak s.

(** Calendar days used in the examples. *)
Definition day1 : jsstring := js "2024-01-01".
Definition day2 : jsstring := js "2024-01-02".
Definition day3 : jsstring := js "2024-01-03".
Definition clockOn (today yesterday : jsstring) : Clock :=
  {| getToday := today; getYesterday := yesterday |}.
Definition dec31 : jsstring := js "2023-12-31".

(** A store in the middle of a streak, last used on 2024-01-01. *)
Definition midStreak : ProgressState :=
  {| currentStreak := 3;
     lastStudyDate := Some day1;
     longestStreak := 5;
     todayAnswered := 7;
     todayCorrect := 4;
     dailyGoal := 20;
     totalAnswered := 40;
     totalCorrect := 31;
     answeredQuestions := {[ js "118A1" ]} |}.

End Progress.

(** ** The question service ([questionService.ts]) *)

Module QuestionService.

(** [interface Question] *)
Record Question : Type := mkQuestion {
  id : jsstring;
  year : Z;
  session : jsstring;
  number : Z;
  questionText : jsstring;
  choices : list (jsstring * jsstring);
  choiceCount : Z;
  answer : jsstring;
  hasFigure : bool;
  figureRefs : list jsstring;
  images : list jsstring;
  isExcluded : bool;
  category : option jsstring;
  subcategory : option jsstring;
  keywords : list jsstring
}.

(** Result of [parseQuestionId]. *)
Record QuestionId : Type := mkQuestionId {
  idYear : Z;
  idSession : jsstring;
  idNumber : Z
}.

(** Result of [parsePartialQuestionId]. *)
Record PartialId : Type := mkPartialId {
  years : list Z;
  partialSession : option jsstring
}.

(** [===] on strings *)
Definition strEq (a b : jsstring) : bool := bool_decide (a = b).

(** [xs.includes(x)] on arrays of numbers and of strings *)
Definition includesNum (xs : list Z) (x : Z) : bool :=
  existsb (fun y => y =? x) xs.

Definition includesStr (xs : list jsstring) (x : jsstring) : bool :=
  existsb (fun y => strEq y x) xs.

(** [isHisshu], lines 54-69. *)
Definition isHisshu (year : Z) (session : jsstring) (number : Z) : bool :=
  if year =? 102 then
    (strEq session (js "A") || strEq session (js "B"))
    && (1 <=? number) && (number <=? 25)
  else if (103 <=? year) && (year <=? 110) then
    (strEq session (js "A") || strEq session (js "B"))
    && (1 <=? number) && (number <=? 35)
  else if (111 <=? year) && (year <=? 113) then
    (strEq session (js "A") || strEq session (js "B"))
    && (1 <=? number) && (number <=? 40)
  else if 114 <=? year then
    includesStr [js "A"; js "B"; js "C"; js "D"] session
    && (1 <=? number) && (number <=? 20)
  else false.

(** [/^(\d{2,3})[\s\-_]*([a-dA-D])[\s\-_]*(\d{1,3})$/], line 76. *)
Definition pattern : list Piece :=
  [ mkPiece isDigit 2 (Some 3%nat) true;
    mkPiece isSeparator 0 None false;
    mkPiece isSessionLetter 1 (Some 1%nat) true;
    mkPiece isSeparator 0 None false;
    mkPiece isDigit 1 (Some 3%nat) true ].

(** [/^(\d{2,3})[\s\-_]*([a-dA-D])[\s\-_]*$/i], line 95. *)
Definition patternWithSession : list Piece :=
  [ mkPiece isDigit 2 (Some 3%nat) true;
    mkPiece isSeparator 0 None false;
    mkPiece isSessionLetter 1 (Some 1%nat) true;
    mkPiece isSeparator 0 None false ].

(** [/^(\d{3})$/], line 108. *)
Definition patternYearFull : list Piece :=
  [ mkPiece isDigit 3 (Some 3%nat) true ].

(** [/^(\d{2})$/], line 118. *)
Definition patternYearPartial : list Piece :=
  [ mkPiece isDigit 2 (Some 2%nat) true ].

(** The loop of lines 125-130: [n] rounds from [i] on, pushing the
    years of the data range onto [acc]. *)
Fixpoint collectYears (pref i : Z) (n : nat) (acc : list Z) : list Z :=
  match n with
  | O => acc
  | S n' =>
    let year := pref * 10 + i in
    collectYears pref (i + 1) n'
      (if (102 <=? year) && (year <=? 118) then acc ++ [year] else acc)
  end.

Section WithHost.
Context `{Host}.

(** [parseQuestionId], lines 73-87. *)
Definition parseQuestionId (text : jsstring) : option QuestionId :=
  match matchPieces pattern (trim text) with
  | Some [g1; g2; g3] =>
    Some {| idYear := parseInt g1;
            idSession := toUpperCase g2;
            idNumber := parseInt g3 |}
  | _ => None
  end.

(** The three attempts of [parsePartialQuestionId], each [None] when
    the code falls through to the next. *)
Definition partialWithSession (trimmed : jsstring) : option PartialId :=
  match matchPieces patternWithSession trimmed with
  | Some [g1; g2] =>
    let year := parseInt g1 in
    if (100 <=? year) && (year <=? 130) then
      Some {| years := [year]; partialSession := Some (toUpperCase g2) |}
    else None
  | _ => None
  end.

Definition partialYearFull (trimmed : jsstring) : option PartialId :=
  match matchPieces patternYearFull trimmed with
  | Some [g1] =>
    let year := parseInt g1 in
    if (100 <=? year) && (year <=? 130) then
      Some {| years := [year]; partialSession := None |}
    else None
  | _ => None
  end.

Definition partialYearPrefix (trimmed : jsstring) : option PartialId :=
  match matchPieces patternYearPartial trimmed with
  | Some [g1] =>
    let pref := parseInt g1 in
    if (10 <=? pref) && (pref <=? 13) then
      let years := collectYears pref 0 10 [] in
      if (0 <? length years)%nat then
        Some {| years := years; partialSession := None |}
      else None
    else None
  | _ => None
  end.

(** [parsePartialQuestionId], lines 91-138. *)
Definition parsePartialQuestionId (text : jsstring) : option PartialId :=
  let trimmed := trim text in
  match partialWithSession trimmed with
  | Some r => Some r
  | None =>
    match partialYearFull trimmed with
    | Some r => Some r
    | None => partialYearPrefix trimmed
    end
  end.

(** The callback of line 153. *)
Definition matchesId (parsed : QuestionId) (q : Question) : bool :=
  let yearMatch := year q =? idYear parsed in
  let sessionMatch := strEq (session q) (idSession parsed) in
  let numberMatch := number q =? idNumber parsed in
  yearMatch && sessionMatch && numberMatch.

(** The callback of line 163. *)
Definition matchesExactId (trimmedSearch : jsstring) (q : Question) : bool :=
  strEq (toLowerCase (id q)) (toLowerCase trimmedSearch).

(** The callback of line 172. *)
Definition matchesPartial (partialParsed : PartialId) (q : Question) : bool :=
  let yearMatch := includesNum (years partialParsed) (year q) in
  let sessionMatch :=
    match partialSession partialParsed with
    | Some s => if truthy s then strEq (session q) s else true
    | None => true
    end in
  yearMatch && sessionMatch.

(** Line 199: the keywords of the search text. *)
Definition keywordsOf (trimmedSearch : jsstring) : list jsstring :=
  List.filter (fun k => (0 <? length k)%nat) (split isKeywordGap trimmedSearch).

(** The callback of line 202. *)
Definition matchesKeyword (q : Question) (keyword : jsstring) : bool :=
  let lowerKeyword := toLowerCase keyword in
  let inQuestion := includes (toLowerCase (questionText q)) lowerKeyword in
  let inChoices :=
    existsb (fun c => includes (toLowerCase c) lowerKeyword)
      (map snd (choices q)) in
  inQuestion || inChoices.

(** The callback of line 179. *)
Definition passesFilters (trimmedSearch : jsstring) (selectedYears : list Z)
    (sessions : list jsstring) (hisshuOnly : bool) (q : Question) : bool :=
  if hisshuOnly && negb (isHisshu (year q) (session q) (number q)) then false
  else if (0 <? length selectedYears)%nat
          && negb (includesNum selectedYears (year q)) then false
  else if (0 <? length sessions)%nat
          && negb (includesStr sessions (session q)) then false
  else if truthy trimmedSearch then
    let matchesAll := forallb (matchesKeyword q) (keywordsOf trimmedSearch) in
    if negb matchesAll then false else true
  else true.

(** The exact-id lookup of lines 162-167: the questions it returns, if
    it returns. *)
Definition exactIdMatch (questions : list Question) (trimmedSearch : jsstring)
  : option (list Question) :=
  if truthy trimmedSearch then
    let exactMatch := List.filter (matchesExactId trimmedSearch) questions in
    if (0 <? length exactMatch)%nat then Some exactMatch else None
  else None.

(** [filterQuestions], lines 141-218. *)
Definition filterQuestions (questions : list Question) (searchText : jsstring)
    (selectedYears : list Z) (sessions : list jsstring) (hisshuOnly : bool)
  : list Question :=
  let trimmedSearch := trim searchText in
  match parseQuestionId trimmedSearch with
  | Some parsed => List.filter (matchesId parsed) questions
  | None =>
    match exactIdMatch questions trimmedSearch with
    | Some exactMatch => exactMatch
    | None =>
      match parsePartialQuestionId trimmedSearch with
      | Some partialParsed => List.filter (matchesPartial partialParsed) questions
      | None =>
        List.filter
          (passesFilters trimmedSearch selectedYears sessions hisshuOnly)
          questions
      end
    end
  end.

End WithHost.

(** A question with the given identifier, text and choices; the other
    fields as the ingestion script leaves them. *)
Definition question (y : Z) (s : jsstring) (n : Z) (ident text : jsstring)
    (cs : list (jsstring * jsstring)) : Question :=
  {| id := ident; year := y; session := s; number := n;
     questionText := text; choices := cs; choiceCount := 1;
     answer := js "a"; hasFigure := false; figureRefs := []; images := [];
     isExcluded := false; category := None; subcategory := None;
     keywords := [] |}.

(** *** What the specification says of the parser and the filter *)

(** The complete form of an identifier on a trimmed text [t]: two or
    three digits [ds1], separators, one letter [l] of a-d in either case,
    separators, one to three digits [ds2], and nothing else. *)
Definition completeForm (t ds1 : jsstring) (l : N) (ds2 : jsstring) : Prop :=
  exists sep1 sep2,
    t = ds1 ++ sep1 ++ [l] ++ sep2 ++ ds2
    /\ forallb isDigit ds1 = true /\ (2 <= length ds1 <= 3)%nat
    /\ forallb isSeparator sep1 = true
    /\ isSessionLetter l = true
    /\ forallb isSeparator sep2 = true
    /\ forallb isDigit ds2 = true /\ (1 <= length ds2 <= 3)%nat.

(** The components the parser is to return on that form. *)
Definition completeResult (ds1 : jsstring) (l : N) (ds2 : jsstring)
  : QuestionId :=
  {| idYear := decimalValue ds1;
     idSession := [asciiUpper l];
     idNumber := decimalValue ds2 |}.

(** A text in which one of the three components is missing: the
    number, the session letter, or the year. *)
Inductive missesComponent : jsstring -> Prop :=
| missing_number ds1 sep1 l sep2 :
    forallb isDigit ds1 = true ->
    forallb isSeparator sep1 = true ->
    isSessionLetter l = true ->
    forallb isSeparator sep2 = true ->
    missesComponent (ds1 ++ sep1 ++ [l] ++ sep2)
| missing_session ds1 sep ds2 :
    forallb isDigit ds1 = true ->
    forallb isSeparator sep = true ->
    forallb isDigit ds2 = true ->
    missesComponent (ds1 ++ sep ++ ds2)
| missing_year sep1 l sep2 ds2 :
    forallb isSeparator sep1 = true ->
    isSessionLetter l = true ->
    forallb isSeparator sep2 = true ->
    forallb isDigit ds2 = true ->
    missesComponent (sep1 ++ [l] ++ sep2 ++ ds2).

(** The triple of a question is the parsed one. *)
Definition sameTriple (parsed : QuestionId) (q : Question) : bool :=
  bool_decide ((year q, session q, number q)
               = (idYear parsed, idSession parsed, idNumber parsed)).

(** The years of a two-digit prefix: [pref * 10 + 0..9], kept when in
    the data range 102..118. *)
Definition decadeYears (pref : Z) : list Z :=
  List.filter (fun y => (102 <=? y) && (y <=? 118))
    (map (fun i => pref * 10 + i) [0; 1; 2; 3; 4; 5; 6; 7; 8; 9]).

(** The answer of the partial parser on a two-digit prefix. *)
Definition decadeAnswer (pref : Z) : option PartialId :=
  match decadeYears pref with
  | [] => None
  | ys => Some {| years := ys; partialSession := None |}
  end.

(** The core-topic, year and session restrictions of the general
    filter; an empty list restricts nothing. *)
Definition passesStructured (selectedYears : list Z) (sessions : list jsstring)
    (hisshuOnly : bool) (q : Question) : Prop :=
  (hisshuOnly = true -> isHisshu (year q) (session q) (number q) = true)
  /\ (selectedYears <> [] -> In (year q) selectedYears)
  /\ (sessions <> [] -> In (session q) sessions).

(** A keyword token: not empty, no white space in it. *)
Definition isToken (k : jsstring) : Prop :=
  k <> [] /\ forallb (fun c => negb (isKeywordGap c)) k = true.

(** A run of ASCII or full-width white space between two tokens. *)
Definition isGap (g : jsstring) : Prop :=
  g <> [] /\ forallb isKeywordGap g = true.

(** The tokens of a trimmed text: token, gap, token, ..., token. *)
Inductive tokensOf : jsstring -> list jsstring -> Prop :=
| tokens_last k : isToken k -> tokensOf k [k]
| tokens_more k g rest ks :
    isToken k -> isGap g -> tokensOf rest ks ->
    tokensOf (k ++ g ++ rest) (k :: ks).

Section SpecWithHost.
Context `{Host}.

(** [t] occurs in [s], case aside. *)
Definition containsCI (s t : jsstring) : Prop :=
  occursIn (toLowerCase t) (toLowerCase s).

(** A token is matched by the text of the question or by the text of
    one of its choices. *)
Definition keywordMatches (q : Question) (token : jsstring) : Prop :=
  containsCI (questionText q) token
  \/ exists c, In c (map snd (choices q)) /\ containsCI c token.

End SpecWithHost.

(** *** A small corpus for the examples *)

Definition ushoku : jsstring := [0x9F72; 0x8755]%N.    (* 齲蝕 *)
Definition kadou : jsstring := [0x7AA9; 0x6D1E]%N.     (* 窩洞 *)
Definition twoKeywords : jsstring := ushoku ++ [0x3000%N] ++ kadou.

Definition q112B48 : Question :=
  question 112 (js "B") 48 (js "112B48")
    (ushoku ++ js " treatment") [ (js "a", kadou); (js "b", js "Pulp") ].

Definition q112A48 : Question :=
  question 112 (js "A") 48 (js "112A48")
    (ushoku ++ js " risk") [ (js "a", js "Plaque"); (js "b", js "Diet") ].

Definition q110C3 : Question :=
  question 110 (js "C") 3 (js "110C3") (js "Enamel") [ (js "a", js "Dentin") ].

Definition q105A1 : Question :=
  question 105 (js "A") 1 (js "105A1") (js "Cementum") [ (js "a", kadou) ].

Definition q118D20 : Question :=
  question 118 (js "D") 20 (js "118D20") (js "Occlusion")
    [ (js "a", js "Canine") ].

Definition sampleCorpus : list Question :=
  [ q112B48; q112A48; q110C3; q105A1; q118D20 ].

End QuestionService.

(** *** Letters that differ in case only *)

Module CaseSpec.

(** Two code units are the same letter, case aside: equal, or one is
    an upper-case letter A-Z and the other the same letter in lower
    case, 32 above it. *)
Definition sameLetter (a b : N) : Prop :=
  a = b
  \/ ((65 <= a <= 90)%N /\ b = (a + 32)%N)
  \/ ((65 <= b <= 90)%N /\ a = (b + 32)%N).

(** Two strings are equal, case aside. *)
Definition equalIgnoringCase (s t : jsstring) : Prop :=
  Forall2 sameLetter s t.

(** [t] occurs in [s], case aside: a part of [s] equals [t] but for
    the case of its letters. *)
Definition occursIgnoringCase (t s : jsstring) : Prop :=
  exists pre mid post, s = pre ++ mid ++ post /\ equalIgnoringCase mid t.

End CaseSpec.

(** ** Further parts of the sources *)

(** *** The question service: what else it is meant to compute *)

Module ServiceSpec.
Import QuestionService.

(** The form "year, session" of a partial identifier on a trimmed text:
    two or three digits [ds], separators, one letter [l] of a-d in either
    case, separators, and nothing else. *)
Definition sessionForm (t ds : jsstring) (l : N) : Prop :=
  exists sep1 sep2,
    t = ds ++ sep1 ++ [l] ++ sep2
    /\ forallb isDigit ds = true /\ (2 <= length ds <= 3)%nat
    /\ forallb isSeparator sep1 = true
    /\ isSessionLetter l = true
    /\ forallb isSeparator sep2 = true.

(** [getSessions()], lines 49-51. *)
Definition getSessions : list jsstring := [js "A"; js "B"; js "C"; js "D"].

(** The numbers 1, 2, ..., [n]. *)
Definition numbersTo (n : nat) : list Z := map Z.of_nat (seq 1 n).

(** How many questions of the sessions A-D, numbered 1 to 100, are core
    topics in the exam [year]. *)
Definition coreCount (year : Z) : nat :=
  length
    (List.filter (fun sn => isHisshu year (fst sn) (snd sn))
       (list_prod getSessions (numbersTo 100))).

End ServiceSpec.

(** *** The progress store: what is written to storage and read back *)

Module ProgressStorage.
Import Progress.

(** The stored blob once parsed: any field may be missing (an older or
    damaged blob); the set of answered ids is stored as an array. *)
Record Stored : Type := mkStored {
  storedCurrentStreak : option Z;
  storedLastStudyDate : option (option jsstring);
  storedLongestStreak : option Z;
  storedTodayAnswered : option Z;
  storedTodayCorrect : option Z;
  storedDailyGoal : option Z;
  storedTotalAnswered : option Z;
  storedTotalCorrect : option Z;
  storedAnsweredQuestions : option (list jsstring)
}.

(** [partialize], lines 119-122: every field of the state, the set as
    the array of its elements. *)
Definition partialize (state : ProgressState) : Stored :=
  {| storedCurrentStreak := Some (currentStreak state);
     storedLastStudyDate := Some (lastStudyDate state);
     storedLongestStreak := Some (longestStreak state);
     storedTodayAnswered := Some (todayAnswered state);
     storedTodayCorrect := Some (todayCorrect state);
     storedDailyGoal := Some (dailyGoal state);
     storedTotalAnswered := Some (totalAnswered state);
     storedTotalCorrect := Some (totalCorrect state);
     storedAnsweredQuestions := Some (elements (answeredQuestions state)) |}.

(** A field of [{...current, ...persisted}]. *)
Definition spread {A : Type} (persisted : option Stored)
    (field : Stored -> option A) (current : A) : A :=
  match persisted with
  | Some p => match field p with Some v => v | None => current end
  | None => current
  end.

(** [merge], lines 123-127; [persisted] is [None] when nothing is
    stored. *)
Definition merge (persisted : option Stored) (current : ProgressState)
  : ProgressState :=
  {| currentStreak := spread persisted storedCurrentStreak (currentStreak current);
     lastStudyDate := spread persisted storedLastStudyDate (lastStudyDate current);
     longestStreak := spread persisted storedLongestStreak (longestStreak current);
     todayAnswered := spread persisted storedTodayAnswered (todayAnswered current);
     todayCorrect := spread persisted storedTodayCorrect (todayCorrect current);
     dailyGoal := spread persisted storedDailyGoal (dailyGoal current);
     totalAnswered := spread persisted storedTotalAnswered (totalAnswered current);
     totalCorrect := spread persisted storedTotalCorrect (totalCorrect current);
     answeredQuestions :=
       list_to_set
         (match persisted with
          | Some p =>
            match storedAnsweredQuestions p with Some ids => ids | None => [] end
          | None => []
          end) |}.

(** The counters of the store are consistent. *)
Definition countersInvariant (s : ProgressState) : Prop :=
  0 <= todayCorrect s <= todayAnswered s
  /\ todayAnswered s <= totalAnswered s
  /\ todayCorrect s <= totalCorrect s
  /\ totalCorrect s <= totalAnswered s.

End ProgressStorage.

(** *** The favorites store ([useFavoritesStore]) *)

Module Favorites.
Import QuestionService.

Record FavoritesState : Type := mkFavorites {
  favoriteIds : list jsstring
}.

Definition initialFavorites : FavoritesState := {| favoriteIds := [] |}.

(** [fid !== id] *)
Definition strNe (a b : jsstring) : bool := negb (strEq a b).

Definition addFavorite (id : jsstring) (state : FavoritesState)
  : FavoritesState :=
  if includesStr (favoriteIds state) id then state
  else {| favoriteIds := favoriteIds state ++ [id] |}.

Definition removeFavorite (id : jsstring) (state : FavoritesState)
  : FavoritesState :=
  {| favoriteIds := List.filter (fun fid => strNe fid id) (favoriteIds state) |}.

Definition toggleFavorite (id : jsstring) (state : FavoritesState)
  : FavoritesState :=
  if includesStr (favoriteIds state) id then
    {| favoriteIds := List.filter (fun fid => strNe fid id) (favoriteIds state) |}
  else {| favoriteIds := favoriteIds state ++ [id] |}.

Definition isFavorite (id : jsstring) (state : FavoritesState) : bool :=
  includesStr (favoriteIds state) id.

Definition clearAll (state : FavoritesState) : FavoritesState :=
  {| favoriteIds := [] |}.

Inductive FavAction : Type :=
| AddFavorite (id : jsstring)
| RemoveFavorite (id : jsstring)
| ToggleFavorite (id : jsstring)
| ClearAll.

Definition favStep (a : FavAction) (s : FavoritesState) : FavoritesState :=
  match a with
  | AddFavorite id => addFavorite id s
  | RemoveFavorite id => removeFavorite id s
  | ToggleFavorite id => toggleFavorite id s
  | ClearAll => clearAll s
  end.

Definition favRun (acts : list FavAction) (s : FavoritesState)
  : FavoritesState :=
  fold_left (fun st a => favStep a st) acts s.

End Favorites.

(** *** The search history store ([useSearchHistoryStore.ts]) *)

Module SearchHistory.
Import QuestionService Favorites.

Record SearchHistoryState : Type := mkHistory {
  history : list jsstring
}.

Definition MAX_HISTORY : nat := 20.

Definition addSearch (keyword : jsstring) (state : SearchHistoryState)
  : SearchHistoryState :=
  if negb (truthy (trim keyword)) then state
  else
    let filtered := List.filter (fun h => strNe h keyword) (history state) in
    let newHistory := take MAX_HISTORY (keyword :: filtered) in
    {| history := newHistory |}.

Definition removeSearch (keyword : jsstring) (state : SearchHistoryState)
  : SearchHistoryState :=
  {| history := List.filter (fun h => strNe h keyword) (history state) |}.

Definition clearHistory (state : SearchHistoryState) : SearchHistoryState :=
  {| history := [] |}.

Inductive HistoryAction : Type :=
| AddSearch (keyword : jsstring)
| RemoveSearch (keyword : jsstring)
| ClearHistory.

Definition historyStep (a : HistoryAction) (s : SearchHistoryState)
  : SearchHistoryState :=
  match a with
  | AddSearch k => addSearch k s
  | RemoveSearch k => removeSearch k s
  | ClearHistory => clearHistory s
  end.

Definition historyRun (acts : list HistoryAction) (s : SearchHistoryState)
  : SearchHistoryState :=
  fold_left (fun st a => historyStep a st) acts s.

End SearchHistory.

(** *** The application store ([useStore.ts]) *)

Module AppStore.
Import QuestionService Favorites.

(** [interface FilterState] *)
Record FilterState : Type := mkFilter {
  searchText : jsstring;
  selectedYears : list Z;
  sessions : list jsstring
}.

(** [interface AppState], data fields. *)
Record AppState : Type := mkApp {
  allQuestions : list Question;
  filteredQuestions : list Question;
  filter : FilterState;
  selectedQuestion : option Question;
  showAnswer : bool
}.

(** [xs.sort((a, b) => b - a)] on numbers: the elements in descending
    order.  (On integers the comparator fixes the result, whatever the
    sorting algorithm of the engine.) *)
Fixpoint insertDesc (x : Z) (l : list Z) : list Z :=
  match l with
  | [] => [x]
  | y :: l' => if y <? x then x :: l else y :: insertDesc x l'
  end.

Fixpoint sortDesc (l : list Z) : list Z :=
  match l with
  | [] => []
  | x :: l' => insertDesc x (sortDesc l')
  end.

(** The loop of [selectAllYears], lines 71-73: [n] rounds from [y]
    down. *)
Fixpoint yearsDown (y : Z) (n : nat) : list Z :=
  match n with
  | O => []
  | S n' => y :: yearsDown (y - 1) n'
  end.

(** The filter of lines 26-31 of the service, behind
    [getAllQuestions]. *)
Definition validQuestion (q : Question) : bool :=
  truthy (questionText q)
  && (0 <? length (choices q))%nat
  && (truthy (answer q) || isExcluded q).

Definition getAllQuestions (data : list Question) : list Question :=
  List.filter validQuestion data.

Section WithHostAndData.
Context `{Host}.
(** [data.questions] and [getYearRange()] of the service. *)
Variable data : list Question.
Variables minYear maxYear : Z.

Definition initialApp : AppState :=
  {| allQuestions := getAllQuestions data;
     filteredQuestions := getAllQuestions data;
     filter := {| searchText := []; selectedYears := []; sessions := [] |};
     selectedQuestion := None;
     showAnswer := false |}.

(** [applyFilter], lines 108-117; the core-topic flag takes its
    default. *)
Definition applyFilter (state : AppState) : AppState :=
  let filtered :=
    filterQuestions (allQuestions state) (searchText (filter state))
      (selectedYears (filter state)) (sessions (filter state)) false in
  {| allQuestions := allQuestions state;
     filteredQuestions := filtered;
     filter := filter state;
     selectedQuestion := selectedQuestion state;
     showAnswer := showAnswer state |}.

Definition withFilter (f : FilterState) (state : AppState) : AppState :=
  {| allQuestions := allQuestions state;
     filteredQuestions := filteredQuestions state;
     filter := f;
     selectedQuestion := selectedQuestion state;
     showAnswer := showAnswer state |}.

Definition setSearchText (text : jsstring) (state : AppState) : AppState :=
  applyFilter
    (withFilter {| searchText := text;
                   selectedYears := selectedYears (filter state);
                   sessions := sessions (filter state) |} state).

Definition toggleYear (year : Z) (state : AppState) : AppState :=
  let current := selectedYears (filter state) in
  let newYears :=
    if includesNum current year
    then List.filter (fun y => negb (y =? year)) current
    else sortDesc (current ++ [year]) in
  applyFilter
    (withFilter {| searchText := searchText (filter state);
                   selectedYears := newYears;
                   sessions := sessions (filter state) |} state).

Definition selectAllYears (state : AppState) : AppState :=
  let years := yearsDown maxYear (Z.to_nat (maxYear - minYear + 1)) in
  applyFilter
    (withFilter {| searchText := searchText (filter state);
                   selectedYears := years;
                   sessions := sessions (filter state) |} state).

Definition clearAllYears (state : AppState) : AppState :=
  applyFilter
    (withFilter {| searchText := searchText (filter state);
                   selectedYears := [];
                   sessions := sessions (filter state) |} state).

Definition toggleSession (session : jsstring) (state : AppState) : AppState :=
  let current := sessions (filter state) in
  let newSessions :=
    if includesStr current session
    then List.filter (fun s => strNe s session) current
    else current ++ [session] in
  applyFilter
    (withFilter {| searchText := searchText (filter state);
                   selectedYears := selectedYears (filter state);
                   sessions := newSessions |} state).

Definition selectQuestion (question : option Question) (state : AppState)
  : AppState :=
  {| allQuestions := allQuestions state;
     filteredQuestions := filteredQuestions state;
     filter := filter state;
     selectedQuestion := question;
     showAnswer := false |}.

Definition toggleAnswer (state : AppState) : AppState :=
  {| allQuestions := allQuestions state;
     filteredQuestions := filteredQuestions state;
     filter := filter state;
     selectedQuestion := selectedQuestion state;
     showAnswer := negb (showAnswer state) |}.

Inductive AppAction : Type :=
| SetSearchText (text : jsstring)
| ToggleYear (year : Z)
| SelectAllYears
| ClearAllYears
| ToggleSession (session : jsstring)
| SelectQuestion (question : option Question)
| ToggleAnswer
| ApplyFilter.

Definition appStep (a : AppAction) (s : AppState) : AppState :=
  match a with
  | SetSearchText t => setSearchText t s
  | ToggleYear y => toggleYear y s
  | SelectAllYears => selectAllYears s
  | ClearAllYears => clearAllYears s
  | ToggleSession x => toggleSession x s
  | SelectQuestion q => selectQuestion q s
  | ToggleAnswer => toggleAnswer s
  | ApplyFilter => applyFilter s
  end.

Definition appRun (acts : list AppAction) (s : AppState) : AppState :=
  fold_left (fun st a => appStep a st) acts s.

(** The list shown is the filter of the corpus under the filter set. *)
Definition filterInSync (s : AppState) : Prop :=
  filteredQuestions s
  = filterQuestions (allQuestions s) (searchText (filter s))
      (selectedYears (filter s)) (sessions (filter s)) false.

End WithHostAndData.

(** Strictly descending: sorted from the newest exam down, no year
    twice. *)
Definition descending (l : list Z) : Prop :=
  StronglySorted (fun a b => b < a) l.

End AppStore.

(** *** The study mode ([HomeScreen.tsx], [StudyMode]) *)

Module StudyMode.
Import QuestionService Progress.

(** The state of the component that the two handlers use, with the
    progress store beside it. *)
Record StudyState : Type := mkStudy {
  selectedChoices : gset jsstring;
  isAnswered : bool;
  isCorrect : bool;
  progress : ProgressState
}.

(** [/[a-e]/.test(c)] *)
Definition hasChoiceLetter (c : jsstring) : bool :=
  existsb (fun u => ((97 <=? u) && (u <=? 101))%N) c.

(** [[0-9.]], the class of the answers of calculation questions. *)
Definition isNumberUnit (u : N) : bool := (isDigit u || (u =? 46))%N.

Section WithHost.
Context `{Host}.

(** Line 257: the letters of the answer, one string for each. *)
Definition correctAnswers (answer : jsstring) : list jsstring :=
  List.filter hasChoiceLetter (map (fun u => [u]) (toLowerCase answer)).

(** Lines 257-261: the verdict on a selection. *)
Definition judge (answer : jsstring) (selected : gset jsstring) : bool :=
  let correctAnswers := correctAnswers answer in
  (length correctAnswers =? size selected)%nat
  && forallb (fun c => bool_decide (c ∈ selected)) correctAnswers.

(** [handleChoiceClick], lines 236-251. *)
Definition handleChoiceClick (currentQuestion : Question) (key : jsstring)
    (st : StudyState) : StudyState :=
  if isAnswered st then st
  else
    let prev := selectedChoices st in
    let next :=
      if bool_decide (key ∈ prev) then prev ∖ {[ key ]}
      else (if choiceCount currentQuestion =? 1 then ∅ else prev) ∪ {[ key ]} in
    {| selectedChoices := next;
       isAnswered := isAnswered st;
       isCorrect := isCorrect st;
       progress := progress st |}.

(** [handleSubmit], lines 254-267; [currentQuestion] is [None] past
    the end of the list. *)
Definition handleSubmit (clk : Clock) (currentQuestion : option Question)
    (st : StudyState) : StudyState :=
  match currentQuestion with
  | None => st
  | Some q =>
    if (size (selectedChoices st) =? 0)%nat || isAnswered st then st
    else
      let correct := judge (answer q) (selectedChoices st) in
      {| selectedChoices := selectedChoices st;
         isAnswered := true;
         isCorrect := correct;
         progress := recordAnswer clk (id q) correct (progress st) |}
  end.

End WithHost.

End StudyMode.

(** *** Inputs for the examples of the further properties *)

Module Examples.
Import QuestionService Progress AppStore StudyMode.

(** A question whose id is a bare exam number. *)
Definition q118 : Question :=
  question 118 (js "A") 1 (js "118") (js "Mandible") [ (js "a", js "Ramus") ].

Definition oddCorpus : list Question := [ q118; q118D20; q112B48 ].

(** A question whose id is an exam number and a session letter. *)
Definition q118A : Question :=
  question 118 (js "A") 2 (js "118A") (js "Maxilla") [ (js "a", js "Sinus") ].

Definition letterCorpus : list Question := [ q118D20; q118A; q118 ].

(** A question whose id is two digits, and a corpus with it. *)
Definition q11 : Question :=
  question 105 (js "A") 1 (js "11") (js "Cementum") [ (js "a", js "Dentin") ].

Definition twoDigitIdCorpus : list Question := [ q11; q112B48; q110C3 ].

(** A search in capitals and in small letters. *)
Definition mixedCase : jsstring := js "ENAMEL dentin".

(** A calculation question: the answer is a number. *)
Definition qCalc : Question :=
  {| id := js "115C80"; year := 115; session := js "C"; number := 80;
     questionText := js "Dose"; choices := [ (js "a", js "mg") ];
     choiceCount := 1; answer := js "12.5"; hasFigure := false;
     figureRefs := []; images := []; isExcluded := false; category := None;
     subcategory := None; keywords := [] |}.

(** A study state with the choice [a] selected and nothing answered. *)
Definition choseA : StudyState :=
  {| selectedChoices := {[ js "a" ]};
     isAnswered := false;
     isCorrect := false;
     progress := initialState |}.

Definition nothingChosen : StudyState :=
  {| selectedChoices := ∅;
     isAnswered := false;
     isCorrect := false;
     progress := initialState |}.

(** The application store on the small corpus with the years 118 and
    112 selected. *)
Definition twoYearsApp : AppState :=
  {| allQuestions := sampleCorpus;
     filteredQuestions := [ q112B48; q112A48; q118D20 ];
     filter := {| searchText := []; selectedYears := [118; 112];
                  sessions := [] |};
     selectedQuestion := None;
     showAnswer := false |}.

Definition freshApp : AppState :=
  {| allQuestions := sampleCorpus;
     filteredQuestions := sampleCorpus;
     filter := {| searchText := []; selectedYears := []; sessions := [] |};
     selectedQuestion := None;
     showAnswer := false |}.

(** A session of the progress store over three days. *)
Definition threeDays : list Action :=
  [ RecordAnswer (clockOn day1 dec31) (js "118A1") true;
    RecordAnswer (clockOn day1 dec31) (js "118A2") false;
    SetDailyGoal 10;
    RecordAnswer (clockOn day2 day1) (js "118A1") true;
    CheckAndUpdateStreak (clockOn day3 day2) ].

End Examples.

(** * Properties of the progress store *)

Section ProgressFacts.
Import Progress.

Implicit Types (s : ProgressState) (clk : Clock) (q : jsstring) (b : bool).

Lemma dateIs_true s d : dateIs s d = true <-> lastStudyDate s = Some d.
Proof. unfold dateIs. apply bool_decide_eq_true. Qed.

Lemma dateIs_false s d : dateIs s d = false <-> lastStudyDate s <> Some d.
Proof. unfold dateIs. apply bool_decide_eq_false. Qed.

(** Once the counters are written the store is dated today. *)
Lemma recordCounters_today clk q b s :
  dateIs (recordCounters clk q b s) (getToday clk) = true.
Proof. apply dateIs_true. reflexivity. Qed.

(** So the streak check that follows returns at its first test: the
    whole of [recordAnswer] is the write of the counters. *)
Lemma recordAnswer_is_recordCounters clk q b s :
  recordAnswer clk q b s = recordCounters clk q b s.
Proof.
  unfold recordAnswer, checkAndUpdateStreak.
  now rewrite recordCounters_today.
Qed.

(** What [checkAndUpdateStreak] does on a store last dated yesterday,
    when it is called before the date is overwritten. *)
Lemma checkAndUpdateStreak_yesterday clk s :
  lastStudyDate s = Some (getYesterday clk) ->
  getYesterday clk <> getToday clk ->
  currentStreak (checkAndUpdateStreak clk s) = currentStreak s + 1
  /\ longestStreak (checkAndUpdateStreak clk s)
     = Z.max (longestStreak s) (currentStreak s + 1).
Proof.
  intros Hy Hne. unfold checkAndUpdateStreak.
  destruct (dateIs s (getToday clk)) eqn:Ht.
  - apply dateIs_true in Ht. congruence.
  - apply dateIs_true in Hy. rewrite Hy. split; reflexivity.
Qed.

(** What it does on a store with no date. *)
Lemma checkAndUpdateStreak_first clk s :
  lastStudyDate s = None ->
  currentStreak (checkAndUpdateStreak clk s) = 1
  /\ longestStreak (checkAndUpdateStreak clk s) = Z.max (longestStreak s) 1.
Proof.
  intros Hn. unfold checkAndUpdateStreak, dateIs. rewrite Hn.
  rewrite !bool_decide_eq_false_2 by discriminate. split; reflexivity.
Qed.

(** The streak check leaves every field but the two streak counters. *)
Lemma checkAndUpdateStreak_frame clk s :
  let s' := checkAndUpdateStreak clk s in
  lastStudyDate s' = lastStudyDate s
  /\ todayAnswered s' = todayAnswered s /\ todayCorrect s' = todayCorrect s
  /\ dailyGoal s' = dailyGoal s
  /\ totalAnswered s' = totalAnswered s /\ totalCorrect s' = totalCorrect s
  /\ answeredQuestions s' = answeredQuestions s.
Proof.
  unfold checkAndUpdateStreak.
  destruct (dateIs s (getToday clk)); [easy|].
  destruct (dateIs s (getYesterday clk)); [easy|].
  destruct (lastStudyDate s); easy.
Qed.

(** The branches of the streak check that keep the invariant: all but
    the reset of a store whose longest streak is below 1. *)
Lemma checkAndUpdateStreak_invariant clk s :
  streakInvariant s ->
  1 <= longestStreak s \/ lastStudyDate s = None
    \/ lastStudyDate s = Some (getToday clk)
    \/ lastStudyDate s = Some (getYesterday clk) ->
  streakInvariant (checkAndUpdateStreak clk s).
Proof.
  unfold streakInvariant, checkAndUpdateStreak. intros Hinv Hcase.
  destruct (dateIs s (getToday clk)) eqn:Ht; [exact Hinv|].
  destruct (dateIs s (getYesterday clk)) eqn:Hy; [simpl; lia|].
  destruct (lastStudyDate s) as [d|] eqn:Hd; simpl; [|lia].
  apply dateIs_false in Ht, Hy. rewrite Hd in Ht, Hy.
  destruct Hcase as [?|[?|[?|?]]]; [lia|congruence..].
Qed.

Lemma recordAnswer_invariant clk q b s :
  streakInvariant s -> streakInvariant (recordAnswer clk q b s).
Proof. rewrite recordAnswer_is_recordCounters. exact id. Qed.

Lemma setDailyGoal_invariant g s :
  streakInvariant s -> streakInvariant (setDailyGoal g s).
Proof. exact id. Qed.

Lemma run_app acts1 acts2 s : run (acts1 ++ acts2) s = run acts2 (run acts1 s).
Proof. apply fold_left_app. Qed.

Lemma run_reachable acts : reachable (run acts initialState).
Proof.
  induction acts as [|a acts IH] using rev_ind.
  - constructor.
  - rewrite run_app. simpl. now constructor.
Qed.

(** ** The claims on the progress store *)

(** C1, as the code has it.  The claim: on a store whose [lastStudyDate]
    is yesterday, [recordAnswer] raises [currentStreak] by 1 and sets
    [longestStreak] to the maximum of its old value and the new streak,
    the date compared being the one held before it was overwritten.  The
    code compares the date after it was overwritten with today: both
    counters stay as they were and [currentStreak] is not raised. *)
Theorem recordAnswer_after_yesterday_streak_stuck clk q b s :
  lastStudyDate s = Some (getYesterday clk) ->
  currentStreak (recordAnswer clk q b s) = currentStreak s
  /\ longestStreak (recordAnswer clk q b s) = longestStreak s
  /\ currentStreak (recordAnswer clk q b s) <> currentStreak s + 1.
Proof.
  intros _. rewrite recordAnswer_is_recordCounters. simpl.
  repeat split; lia.
Qed.

(** The same on a store last used on 2024-01-01, answered on 2024-01-02:
    the streak stays 3 and the longest streak 5. *)
Lemma recordAnswer_after_yesterday_streak_stuck_witness :
  lastStudyDate midStreak = Some (getYesterday (clockOn day2 day1))
  /\ currentStreak (recordAnswer (clockOn day2 day1) (js "118A2") true midStreak)
     = 3
  /\ longestStreak (recordAnswer (clockOn day2 day1) (js "118A2") true midStreak)
     = 5.
Proof.
  split; [reflexivity|].
  destruct (recordAnswer_after_yesterday_streak_stuck
              (clockOn day2 day1) (js "118A2") true midStreak eq_refl)
    as (Hc & Hl & _).
  split; [exact Hc | exact Hl].
Defined.

(** C2, as the code has it.  The claim: from the initial store (no
    date, streak 0) the first [recordAnswer] sets [currentStreak] to 1
    and [longestStreak] to the maximum of its old value and 1.  The code
    leaves both at 0, whatever the day, the question and the answer. *)
Theorem recordAnswer_first_answer_streak_zero clk q b :
  currentStreak (recordAnswer clk q b initialState) = 0
  /\ longestStreak (recordAnswer clk q b initialState) = 0
  /\ lastStudyDate (recordAnswer clk q b initialState) = Some (getToday clk).
Proof. rewrite recordAnswer_is_recordCounters. repeat split. Qed.

(** C7.  For every store and every call [recordAnswer(questionId,
    isCorrect)]: if [lastStudyDate] is not today then afterwards
    [todayAnswered] is 1 and [todayCorrect] is 1 or 0 with [isCorrect],
    else both go up from their old values; in every case [totalAnswered]
    goes up by 1, [totalCorrect] by 1 or 0 with [isCorrect],
    [lastStudyDate] becomes today, and [questionId] is added to the set
    of answered ids, an insert that changes nothing when the id is there
    already. *)
Theorem recordAnswer_counters clk q b s :
  let s' := recordAnswer clk q b s in
  (lastStudyDate s <> Some (getToday clk) ->
     todayAnswered s' = 1 /\ todayCorrect s' = (if b then 1 else 0))
  /\ (lastStudyDate s = Some (getToday clk) ->
     todayAnswered s' = todayAnswered s + 1
     /\ todayCorrect s' = todayCorrect s + (if b then 1 else 0))
  /\ totalAnswered s' = totalAnswered s + 1
  /\ totalCorrect s' = totalCorrect s + (if b then 1 else 0)
  /\ lastStudyDate s' = Some (getToday clk)
  /\ answeredQuestions s' = answeredQuestions s ∪ {[ q ]}
  /\ (q ∈ answeredQuestions s -> answeredQuestions s' = answeredQuestions s).
Proof.
  cbv zeta. rewrite recordAnswer_is_recordCounters. simpl.
  assert (Hone : oneIf b = (if b then 1 else 0)) by (now destruct b).
  rewrite !Hone.
  split; [|split]; [ | |repeat split].
  - intros Hd. apply dateIs_false in Hd. now rewrite Hd.
  - intros Hd. apply dateIs_true in Hd. now rewrite Hd.
  - intros Hq. apply set_eq. intros x.
    rewrite elem_of_union, elem_of_singleton.
    split; [intros [Hx| ->]; assumption | now left].
Qed.

(** On the store of the middle of a streak, last used on 2024-01-01 with
    7 answers that day, 4 of them correct, and 40 answers in all, 31 of
    them correct: a correct answer on 2024-01-02 starts the day at 1 and
    1; a wrong answer on 2024-01-01 makes it 8 and 4; the totals go to
    41 and 32, or 41 and 31. *)
Lemma recordAnswer_counters_witness :
  todayAnswered (recordAnswer (clockOn day2 day1) (js "118A2") true midStreak) = 1
  /\ todayCorrect (recordAnswer (clockOn day2 day1) (js "118A2") true midStreak) = 1
  /\ totalCorrect (recordAnswer (clockOn day2 day1) (js "118A2") true midStreak) = 32
  /\ todayAnswered (recordAnswer (clockOn day1 dec31) (js "118A2") false midStreak) = 8
  /\ todayCorrect (recordAnswer (clockOn day1 dec31) (js "118A2") false midStreak) = 4
  /\ totalAnswered (recordAnswer (clockOn day1 dec31) (js "118A2") false midStreak) = 41
  /\ totalCorrect (recordAnswer (clockOn day1 dec31) (js "118A2") false midStreak) = 31.
Proof.
  destruct (recordAnswer_counters (clockOn day2 day1) (js "118A2") true midStreak)
    as (Hnew & _ & _ & Htc & _).
  destruct (recordAnswer_counters (clockOn day1 dec31) (js "118A2") false midStreak)
    as (_ & Hsame & Hta & Htc' & _).
  destruct Hnew as [Hn1 Hn2]; [vm_compute; discriminate|].
  destruct (Hsame eq_refl) as [Hs1 Hs2].
  split; [exact Hn1|]. split; [exact Hn2|]. split; [exact Htc|].
  split; [exact Hs1|]. split; [exact Hs2|]. split; [exact Hta|exact Htc'].
Defined.

(** C8, as the code has it.  The claim: [longestStreak >= currentStreak]
    holds initially and after every action, so in every reachable
    state.  On the code the store reached from the initial one by an
    answer on 2024-01-01 and a streak check on 2024-01-03 has
    [currentStreak = 1] and [longestStreak = 0]. *)
Theorem streak_invariant_broken_after_gap :
  let s := run [ RecordAnswer (clockOn day1 dec31) (js "118A1") true;
                 CheckAndUpdateStreak (clockOn day3 day2) ] initialState in
  reachable s /\ streakInvariant initialState
  /\ currentStreak s = 1 /\ longestStreak s = 0 /\ ~ streakInvariant s.
Proof.
  cbv zeta. split; [apply run_reachable|].
  split; [unfold streakInvariant; simpl; lia|].
  assert (Hc : currentStreak
            (run [ RecordAnswer (clockOn day1 dec31) (js "118A1") true;
                   CheckAndUpdateStreak (clockOn day3 day2) ] initialState) = 1)
    by (vm_compute; reflexivity).
  assert (Hl : longestStreak
            (run [ RecordAnswer (clockOn day1 dec31) (js "118A1") true;
                   CheckAndUpdateStreak (clockOn day3 day2) ] initialState) = 0)
    by (vm_compute; reflexivity).
  split; [exact Hc|]. split; [exact Hl|].
  unfold streakInvariant. rewrite Hc, Hl. lia.
Qed.

(** C9 fails as stated: [setDailyGoal(0)] on the initial store is
    neither rejected (the goal was 20) nor clamped to 1, and the state it
    reaches has [dailyGoal <= 0]. *)
Lemma setDailyGoal_zero_is_stored :
  let s := step (SetDailyGoal 0) initialState in
  reachable s
  /\ dailyGoal s <= 0
  /\ ~ (dailyGoal s = dailyGoal initialState \/ dailyGoal s = 1).
Proof.
  cbv zeta. split; [constructor; constructor|]. simpl.
  split; [lia|]. intros [?|?]; discriminate.
Qed.

(** C9, amended.  [setDailyGoal(goal)] stores [goal] as it is given,
    positive or not, and changes no other field; a state reached by
    actions none of which is [setDailyGoal] with a goal of 0 or less
    has [dailyGoal > 0]. *)
Theorem setDailyGoal_stores_goal (acts : list Action) goal s :
  Forall positiveGoal acts ->
  setDailyGoal goal s
  = {| currentStreak := currentStreak s;
       lastStudyDate := lastStudyDate s;
       longestStreak := longestStreak s;
       todayAnswered := todayAnswered s;
       todayCorrect := todayCorrect s;
       dailyGoal := goal;
       totalAnswered := totalAnswered s;
       totalCorrect := totalCorrect s;
       answeredQuestions := answeredQuestions s |}
  /\ dailyGoal (setDailyGoal goal s) = goal
  /\ 0 < dailyGoal (run acts initialState).
Proof.
  intros Hpos. split; [reflexivity|]. split; [reflexivity|].
  induction acts as [|a acts IH] using rev_ind; [simpl; lia|].
  apply Forall_app in Hpos as [Hacts Ha]. rewrite run_app. simpl.
  specialize (IH Hacts). inversion_clear Ha as [|? ? Hg _].
  destruct a as [clk q b| g |clk]; simpl.
  - now rewrite recordAnswer_is_recordCounters.
  - exact Hg.
  - destruct (checkAndUpdateStreak_frame clk (run acts initialState))
      as (_ & _ & _ & Hgoal & _).
    now rewrite Hgoal.
Qed.

(** A goal of -5 is stored; a session with the goal 30 ends positive. *)
Lemma setDailyGoal_stores_goal_witness :
  Forall positiveGoal
    [ SetDailyGoal 30; RecordAnswer (clockOn day1 dec31) (js "118A1") true ]
  /\ dailyGoal (setDailyGoal (-5) midStreak) = -5
  /\ 0 < dailyGoal
          (run [ SetDailyGoal 30;
                 RecordAnswer (clockOn day1 dec31) (js "118A1") true ]
             initialState).
Proof.
  assert (Hpos : Forall positiveGoal
            [ SetDailyGoal 30;
              RecordAnswer (clockOn day1 dec31) (js "118A1") true ]).
  { repeat constructor. }
  split; [exact Hpos|].
  destruct (setDailyGoal_stores_goal _ (-5) midStreak Hpos) as (_ & Hg & Hr).
  split; [exact Hg | exact Hr].
Defined.

(** C10.  After any single action of the store ([recordAnswer],
    [setDailyGoal], [checkAndUpdateStreak]) the set of answered ids
    contains the set as it was before: no action removes an id. *)
Theorem answeredQuestions_monotone (a : Action) s :
  answeredQuestions s ⊆ answeredQuestions (step a s).
Proof.
  destruct a as [clk q b| g |clk]; simpl.
  - rewrite recordAnswer_is_recordCounters. simpl. set_solver.
  - reflexivity.
  - destruct (checkAndUpdateStreak_frame clk s) as (_ & _ & _ & _ & _ & _ & Hset).
    now rewrite Hset.
Qed.

End ProgressFacts.


(** * Properties of the string functions *)

Section StringFacts.

Implicit Types (s t : jsstring) (c : N).

(** ** Character classes *)

Ltac class_facts :=
  unfold isDigit, isSeparator, isSessionLetter, isWhiteSpace, isAscii;
  repeat progress
    rewrite ?andb_true_iff, ?orb_true_iff, ?N.leb_le, ?N.eqb_eq, ?N.ltb_lt;
  lia.

Lemma digit_not_separator c : isDigit c = true -> isSeparator c = false.
Proof.
  intros Hd. destruct (isSeparator c) eqn:Hs; [|reflexivity]. exfalso.
  revert Hd Hs. class_facts.
Qed.

Lemma digit_not_letter c : isDigit c = true -> isSessionLetter c = false.
Proof.
  intros Hd. destruct (isSessionLetter c) eqn:Hs; [|reflexivity]. exfalso.
  revert Hd Hs. class_facts.
Qed.

Lemma separator_not_digit c : isSeparator c = true -> isDigit c = false.
Proof.
  intros Hs. destruct (isDigit c) eqn:Hd; [|reflexivity].
  apply digit_not_separator in Hd. congruence.
Qed.

Lemma letter_not_digit c : isSessionLetter c = true -> isDigit c = false.
Proof.
  intros Hs. destruct (isDigit c) eqn:Hd; [|reflexivity].
  apply digit_not_letter in Hd. congruence.
Qed.

Lemma letter_not_separator c : isSessionLetter c = true -> isSeparator c = false.
Proof.
  intros Hl. destruct (isSeparator c) eqn:Hs; [|reflexivity]. exfalso.
  revert Hl Hs. class_facts.
Qed.

Lemma separator_not_letter c : isSeparator c = true -> isSessionLetter c = false.
Proof.
  intros Hs. destruct (isSessionLetter c) eqn:Hl; [|reflexivity].
  apply letter_not_separator in Hl. congruence.
Qed.

Lemma digit_not_whitespace c : isDigit c = true -> isWhiteSpace c = false.
Proof.
  intros Hd. destruct (isWhiteSpace c) eqn:Hs; [|reflexivity]. exfalso.
  revert Hd Hs. class_facts.
Qed.

Lemma digit_is_ascii c : isDigit c = true -> isAscii c = true.
Proof. class_facts. Qed.

Lemma letter_is_ascii c : isSessionLetter c = true -> isAscii c = true.
Proof. class_facts. Qed.

Lemma keywordGap_whitespace c : isKeywordGap c = isWhiteSpace c.
Proof.
  unfold isKeywordGap. destruct (isWhiteSpace c) eqn:Hw; [reflexivity|].
  simpl. apply N.eqb_neq. intros ->. discriminate.
Qed.

(** ** [trim] *)

Lemma trimStart_head s :
  trimStart s = [] \/ exists c t, trimStart s = c :: t /\ isWhiteSpace c = false.
Proof.
  induction s as [|c s IH]; [now left|]. simpl.
  destruct (isWhiteSpace c) eqn:Hc; [exact IH|]. right. eauto.
Qed.

Lemma trimEnd_cons_keep c s :
  isWhiteSpace c = false -> exists t, trimEnd (c :: s) = c :: t.
Proof.
  intros Hc. simpl. destruct (trimEnd s); [rewrite Hc|]; eauto.
Qed.

Lemma trimEnd_idem s : trimEnd (trimEnd s) = trimEnd s.
Proof.
  induction s as [|c s IH]; [reflexivity|]. simpl.
  destruct (trimEnd s) as [|d t] eqn:Ht.
  - destruct (isWhiteSpace c) eqn:Hc; [reflexivity|]. simpl. now rewrite Hc.
  - change (trimEnd (c :: d :: t)) with
      (match trimEnd (d :: t) with
       | [] => if isWhiteSpace c then [] else [c]
       | u => c :: u
       end).
    now rewrite IH.
Qed.

Lemma trim_idem s : trim (trim s) = trim s.
Proof.
  unfold trim. destruct (trimStart_head s) as [->|(c & t & -> & Hc)].
  - reflexivity.
  - destruct (trimEnd_cons_keep c t Hc) as [u Hu]. rewrite Hu.
    simpl trimStart. rewrite Hc, <- Hu. apply trimEnd_idem.
Qed.

(** ** [parseInt] *)

Lemma parseDigits_decimal acc s :
  forallb isDigit s = true ->
  parseDigits acc s = acc * 10 ^ Z.of_nat (length s) + decimalValue s.
Proof.
  revert acc. induction s as [|c s IH]; intros acc Hs; simpl in *.
  - lia.
  - apply andb_true_iff in Hs as [Hc Hs]. rewrite Hc, IH by exact Hs.
    replace (Z.of_nat (S (length s))) with (Z.succ (Z.of_nat (length s))) by lia.
    rewrite Z.pow_succ_r by lia. ring.
Qed.

Lemma parseInt_decimal s :
  forallb isDigit s = true -> parseInt s = decimalValue s.
Proof. intros Hs. unfold parseInt. rewrite parseDigits_decimal by exact Hs. lia. Qed.

(** ** [includes] *)

Lemma startsWith_spec s t : startsWith s t = true <-> exists post, s = t ++ post.
Proof.
  revert s. induction t as [|c t IH]; intros s; simpl.
  - split; [intros _; now exists s | now destruct s].
  - destruct s as [|d s].
    + split; [discriminate | intros [? ?]; discriminate].
    + rewrite andb_true_iff, N.eqb_eq, IH. split.
      * intros [-> [post ->]]. eauto.
      * intros [post Hp]. injection Hp as -> ->. eauto.
Qed.

Lemma includes_spec s t : includes s t = true <-> occursIn t s.
Proof.
  unfold occursIn. induction s as [|d s IH]; simpl.
  - rewrite orb_false_r, startsWith_spec. split.
    + intros [post Hp]. exists [], post. exact Hp.
    + intros (pre & post & Hp). destruct pre; [|discriminate]. eauto.
  - rewrite orb_true_iff, startsWith_spec, IH. split.
    + intros [[post Hp]|(pre & post & Hp)].
      * exists [], post. exact Hp.
      * exists (d :: pre), post. simpl. now rewrite Hp.
    + intros (pre & post & Hp). destruct pre as [|e pre].
      * left. eauto.
      * right. injection Hp as -> ->. eauto.
Qed.

(** ** The matcher *)

Lemma firstFrom_unfold {A : Type} (try : nat -> option A) lo n :
  firstFrom try lo n
  = match (if (lo <=? n)%nat then try n else None) with
    | Some r => Some r
    | None => match n with O => None | S n' => firstFrom try lo n' end
    end.
Proof. destruct n; reflexivity. Qed.

Lemma firstFrom_top {A : Type} (try : nat -> option A) lo n r :
  (lo <= n)%nat -> try n = Some r -> firstFrom try lo n = Some r.
Proof.
  intros Hle Htry. rewrite firstFrom_unfold.
  apply Nat.leb_le in Hle. now rewrite Hle, Htry.
Qed.

Lemma firstFrom_Some {A : Type} (try : nat -> option A) lo n r :
  firstFrom try lo n = Some r ->
  exists k, (lo <= k <= n)%nat /\ try k = Some r.
Proof.
  induction n as [|n IH]; rewrite firstFrom_unfold;
    destruct (lo <=? _)%nat eqn:Hle.
  - destruct (try 0%nat) eqn:Ht; [|discriminate].
    intros [= <-]. apply Nat.leb_le in Hle. exists 0%nat. split; [lia|exact Ht].
  - discriminate.
  - destruct (try (S n)) eqn:Ht.
    + intros [= <-]. apply Nat.leb_le in Hle. exists (S n). split; [lia|exact Ht].
    + intros Hf. destruct (IH Hf) as (k & Hk & Hr). exists k. split; [lia|exact Hr].
  - intros Hf. destruct (IH Hf) as (k & Hk & Hr). exists k. split; [lia|exact Hr].
Qed.

Lemma runLength_take cls bound s k :
  (k <= runLength cls bound s)%nat ->
  forallb cls (take k s) = true /\ (k <= length s)%nat
  /\ match bound with Some m => (k <= m)%nat | None => True end.
Proof.
  revert bound k. induction s as [|c s IH]; intros bound k Hk; simpl in Hk.
  - assert (k = 0%nat) as -> by lia. simpl. destruct bound; repeat split; lia.
  - destruct k as [|k]; [simpl; destruct bound; repeat split; lia|].
    destruct (cls c) eqn:Hc; [|lia].
    destruct bound as [[|m]|]; [lia| |].
    + destruct (IH (Some m) k ltac:(lia)) as (Hf & Hl & Hb).
      simpl. rewrite Hc, Hf. repeat split; simpl; lia.
    + destruct (IH None k ltac:(lia)) as (Hf & Hl & _).
      simpl. rewrite Hc, Hf. repeat split; simpl; lia.
Qed.

Lemma runLength_stop cls bound seg s :
  forallb cls seg = true ->
  match bound with Some m => (length seg <= m)%nat | None => True end ->
  stopsAt cls s = true \/ bound = Some (length seg) ->
  runLength cls bound (seg ++ s) = length seg.
Proof.
  revert bound. induction seg as [|c seg IH]; intros bound Hseg Hb Hstop.
  - simpl. destruct s as [|d s]; [reflexivity|]. simpl.
    destruct Hstop as [Hs| ->].
    + simpl in Hs. apply negb_true_iff in Hs. now rewrite Hs.
    + now destruct (cls d).
  - simpl in Hseg. apply andb_true_iff in Hseg as [Hc Hseg].
    simpl. rewrite Hc. destruct bound as [[|m]|]; simpl in Hb.
    + lia.
    + f_equal. apply IH; [exact Hseg|lia|].
      destruct Hstop as [?|[= ->]]; [now left|now right].
    + f_equal. apply IH; [exact Hseg|exact I|].
      destruct Hstop as [?|?]; [now left|discriminate].
Qed.

(** Whatever the matcher accepts is a split along the pieces. *)
Lemma matchPieces_sound pieces s caps :
  matchPieces pieces s = Some caps -> Splits pieces s caps.
Proof.
  revert s caps. induction pieces as [|p rest IH]; intros s caps; simpl.
  - destruct s; [|discriminate]. intros [= <-]. constructor.
  - intros Hm. apply firstFrom_Some in Hm as (k & [Hlo Hhi] & Htry).
    destruct (matchPieces rest (drop k s)) as [caps'|] eqn:Hrest; [|discriminate].
    injection Htry as <-.
    destruct (runLength_take _ _ _ _ Hhi) as (Hcls & Hlen & Hmax).
    rewrite <- (take_drop k s) at 1.
    assert (Hk : length (take k s) = k) by (rewrite length_take; lia).
    apply (splits_cons p rest (take k s) (drop k s) caps').
    + unfold fitsPiece. rewrite Hk. auto.
    + apply IH. exact Hrest.
Qed.

(** A piece whose longest run is [seg] and whose rest matches after it
    takes exactly [seg]. *)
Lemma matchPieces_greedy p rest seg s caps :
  fitsPiece p seg ->
  stopsAt (pclass p) s = true \/ pmax p = Some (length seg) ->
  matchPieces rest s = Some caps ->
  matchPieces (p :: rest) (seg ++ s)
  = Some (if pgroup p then seg :: caps else caps).
Proof.
  intros (Hcls & Hmin & Hmax) Hstop Hrest. simpl.
  rewrite (runLength_stop _ _ _ _ Hcls Hmax Hstop).
  apply firstFrom_top; [exact Hmin|].
  rewrite drop_app_length, take_app_length, Hrest. reflexivity.
Qed.

End StringFacts.

(** * Properties of the question service *)

Section QuestionServiceFacts.
Import QuestionService.
Context `{Host}.

Implicit Types (q : Question) (text t : jsstring).

Lemma parseQuestionId_trim text :
  parseQuestionId (trim text) = parseQuestionId text.
Proof. unfold parseQuestionId. now rewrite trim_idem. Qed.

Lemma parsePartialQuestionId_trim text :
  parsePartialQuestionId (trim text) = parsePartialQuestionId text.
Proof. unfold parsePartialQuestionId. now rewrite trim_idem. Qed.

Lemma toUpperCase_letter l :
  isSessionLetter l = true -> toUpperCase [l] = [asciiUpper l].
Proof.
  intros Hl. unfold toUpperCase. simpl.
  now rewrite (letter_is_ascii l Hl).
Qed.

Lemma stopsAt_app_cons cls s c t :
  forallb (fun d => negb (cls d)) s = true -> cls c = false ->
  stopsAt cls (s ++ c :: t) = true.
Proof.
  intros Hs Hc. destruct s as [|d s]; simpl in *.
  - now rewrite Hc.
  - now apply andb_true_iff in Hs as [-> _].
Qed.

Lemma forallb_impl {A : Type} (f g : A -> bool) (l : list A) :
  (forall x, f x = true -> g x = true) ->
  forallb f l = true -> forallb g l = true.
Proof.
  intros Hfg. rewrite !forallb_forall. auto.
Qed.

(** On the complete form the matcher returns the three groups. *)
Lemma pattern_matches t ds1 l ds2 :
  completeForm t ds1 l ds2 ->
  matchPieces pattern t = Some [ds1; [l]; ds2].
Proof.
  intros (sep1 & sep2 & -> & Hd1 & Hl1 & Hs1 & Hl & Hs2 & Hd2 & Hl2).
  unfold pattern.
  apply (matchPieces_greedy (mkPiece isDigit 2 (Some 3%nat) true)).
  { unfold fitsPiece. simpl. repeat split; [exact Hd1|lia..]. }
  { left. simpl pclass. apply stopsAt_app_cons.
    - eapply forallb_impl; [|exact Hs1]. intros c Hc. simpl.
      now rewrite (separator_not_digit c Hc).
    - now apply letter_not_digit. }
  apply (matchPieces_greedy (mkPiece isSeparator 0 None false)).
  { unfold fitsPiece. simpl. repeat split; [exact Hs1|lia]. }
  { left. simpl. apply negb_true_iff. now apply letter_not_separator. }
  apply (matchPieces_greedy (mkPiece isSessionLetter 1 (Some 1%nat) true) _ [l]).
  { unfold fitsPiece. simpl. rewrite Hl. repeat split; lia. }
  { now right. }
  apply (matchPieces_greedy (mkPiece isSeparator 0 None false)).
  { unfold fitsPiece. simpl. repeat split; [exact Hs2|lia]. }
  { left. simpl pclass. destruct ds2 as [|d ds2]; [simpl in Hl2; lia|].
    simpl in Hd2. apply andb_true_iff in Hd2 as [Hd _].
    simpl. apply negb_true_iff. now apply digit_not_separator. }
  rewrite <- (app_nil_r ds2) at 1.
  apply (matchPieces_greedy (mkPiece isDigit 1 (Some 3%nat) true) [] ds2 [] []).
  { unfold fitsPiece. simpl. repeat split; [exact Hd2|lia..]. }
  { now left. }
  reflexivity.
Qed.

(** Whatever the matcher accepts has the complete form. *)
Lemma pattern_sound t caps :
  matchPieces pattern t = Some caps ->
  exists ds1 l ds2, caps = [ds1; [l]; ds2] /\ completeForm t ds1 l ds2.
Proof.
  intros Hm. apply matchPieces_sound in Hm. unfold pattern in Hm.
  inversion Hm as [|p1 r1 ds1 s1 c1 (Hd1 & Hmin1 & Hmax1) Hm1]; subst; clear Hm.
  inversion Hm1 as [|p2 r2 sep1 s2 c2 (Hs1 & _ & _) Hm2]; subst; clear Hm1.
  inversion Hm2 as [|p3 r3 ls s3 c3 (Hl & Hmin3 & Hmax3) Hm3]; subst; clear Hm2.
  inversion Hm3 as [|p4 r4 sep2 s4 c4 (Hs2 & _ & _) Hm4]; subst; clear Hm3.
  inversion Hm4 as [|p5 r5 ds2 s5 c5 (Hd2 & Hmin5 & Hmax5) Hm5]; subst; clear Hm4.
  inversion Hm5; subst; clear Hm5.
  simpl in *.
  destruct ls as [|l [|l' ls]]; simpl in Hmin3, Hmax3; try lia.
  simpl in Hl. rewrite andb_true_r in Hl.
  exists ds1, l, ds2. split; [reflexivity|].
  exists sep1, sep2. rewrite app_nil_r. repeat split; auto; lia.
Qed.

Lemma forallb_rev {A : Type} (f : A -> bool) (l : list A) :
  forallb f (rev l) = forallb f l.
Proof.
  induction l as [|x l IH]; [reflexivity|]. simpl.
  rewrite forallb_app, IH. simpl. rewrite andb_true_r. apply andb_comm.
Qed.

(** The first unit of [x ++ c :: y] is in [cls] when [x] is and [c] is. *)
Lemma head_class (cls : N -> bool) (x : jsstring) c y :
  forallb cls x = true -> cls c = true ->
  exists d r, x ++ c :: y = d :: r /\ cls d = true.
Proof.
  intros Hx Hc. destruct x as [|d x]; simpl in *.
  - eauto.
  - apply andb_true_iff in Hx as [Hd _]. eauto.
Qed.

(** A text that misses a component does not have the complete form. *)
Lemma missesComponent_not_complete t ds1 l ds2 :
  missesComponent t -> completeForm t ds1 l ds2 -> False.
Proof.
  intros Hmiss (sep1 & sep2 & Ht & Hd1 & Hl1 & Hs1 & Hl & Hs2 & Hd2 & Hl2).
  destruct Hmiss as [a s1 l0 s2 Ha Hs1' Hl0 Hs2'
                    |a sp b Ha Hsp Hb
                    |s1 l0 s2 b Hs1' Hl0 Hs2' Hb].
  - (* the text ends with a separator or the letter, not with a digit *)
    apply (f_equal (@rev N)) in Ht. rewrite !rev_app_distr in Ht.
    simpl in Ht. rewrite <- !app_assoc in Ht. simpl in Ht.
    destruct (rev ds2) as [|d r2] eqn:Hr2.
    { apply (f_equal (@length N)) in Hr2. rewrite length_rev in Hr2.
      simpl in Hr2. lia. }
    assert (Hd : isDigit d = true).
    { rewrite <- forallb_rev, Hr2 in Hd2. simpl in Hd2.
      now apply andb_true_iff in Hd2 as [-> _]. }
    destruct (head_class (fun c => negb (isDigit c)) (rev s2) l0
                (rev s1 ++ rev a)) as (e & r & He & Hne).
    { rewrite forallb_rev. eapply forallb_impl; [|exact Hs2'].
      intros c Hc. simpl. now rewrite (separator_not_digit c Hc). }
    { now rewrite (letter_not_digit l0 Hl0). }
    rewrite He in Ht. simpl in Ht. injection Ht as -> _.
    rewrite Hd in Hne. discriminate.
  - (* there is no letter in the text *)
    assert (Hin : In l (a ++ sp ++ b)).
    { rewrite Ht. apply in_or_app. right. apply in_or_app. right. now left. }
    apply in_app_or in Hin as [Hin|Hin]; [|apply in_app_or in Hin as [Hin|Hin]].
    + rewrite forallb_forall in Ha. apply Ha in Hin.
      rewrite (digit_not_letter l Hin) in Hl. discriminate.
    + rewrite forallb_forall in Hsp. apply Hsp in Hin.
      rewrite (separator_not_letter l Hin) in Hl. discriminate.
    + rewrite forallb_forall in Hb. apply Hb in Hin.
      rewrite (digit_not_letter l Hin) in Hl. discriminate.
  - (* the text starts with a separator or the letter, not with a digit *)
    destruct ds1 as [|d ds1]; [simpl in Hl1; lia|].
    simpl in Hd1. apply andb_true_iff in Hd1 as [Hd _].
    destruct (head_class (fun c => negb (isDigit c)) s1 l0 (s2 ++ b))
      as (e & r & He & Hne).
    { eapply forallb_impl; [|exact Hs1']. intros c Hc. simpl.
      now rewrite (separator_not_digit c Hc). }
    { now rewrite (letter_not_digit l0 Hl0). }
    simpl in Ht. rewrite He in Ht. injection Ht as -> _.
    rewrite Hd in Hne. discriminate.
Qed.

Lemma matchesId_sameTriple parsed q : matchesId parsed q = sameTriple parsed q.
Proof.
  apply eq_true_iff_eq. unfold matchesId, sameTriple, strEq.
  rewrite !andb_true_iff, !Z.eqb_eq, !bool_decide_eq_true. split.
  - intros [[-> ->] ->]. reflexivity.
  - intros [= -> -> ->]. auto.
Qed.

Lemma filter_ext_bool {A : Type} (f g : A -> bool) (l : list A) :
  (forall x, f x = g x) -> List.filter f l = List.filter g l.
Proof.
  intros Hfg. induction l as [|x l IH]; [reflexivity|]. simpl.
  now rewrite Hfg, IH.
Qed.

(** ** The claims on the identifier parser *)

(** C4.  For every text whose trimmed form is two or three digits,
    separators (white space, hyphen, underscore), one letter a-d in
    either case, separators, one to three digits, and nothing else,
    [parseQuestionId] returns the year read from the first digits, the
    letter in upper case as the session, and the number read from the
    last digits.  A text that misses one of the three components, such
    as ["112B"], gets no match; and no text outside the form gets
    one. *)
Theorem parseQuestionId_complete_form text :
  (forall ds1 l ds2,
      completeForm (trim text) ds1 l ds2 ->
      parseQuestionId text = Some (completeResult ds1 l ds2))
  /\ (missesComponent (trim text) -> parseQuestionId text = None)
  /\ (forall parsed,
        parseQuestionId text = Some parsed ->
        exists ds1 l ds2,
          completeForm (trim text) ds1 l ds2
          /\ parsed = completeResult ds1 l ds2)
  /\ parseQuestionId (js "112B") = None.
Proof.
  assert (Hfwd : forall ds1 l ds2,
            completeForm (trim text) ds1 l ds2 ->
            parseQuestionId text = Some (completeResult ds1 l ds2)).
  { intros ds1 l ds2 Hform. unfold parseQuestionId.
    rewrite (pattern_matches _ _ _ _ Hform).
    destruct Hform as (sep1 & sep2 & _ & Hd1 & _ & _ & Hl & _ & Hd2 & _).
    unfold completeResult.
    now rewrite !parseInt_decimal, toUpperCase_letter. }
  assert (Hback : forall parsed,
            parseQuestionId text = Some parsed ->
            exists ds1 l ds2,
              completeForm (trim text) ds1 l ds2
              /\ parsed = completeResult ds1 l ds2).
  { intros parsed Hp.
    destruct (matchPieces pattern (trim text)) as [caps|] eqn:Hm.
    - destruct (pattern_sound _ _ Hm) as (ds1 & l & ds2 & _ & Hform).
      exists ds1, l, ds2. split; [exact Hform|].
      rewrite (Hfwd _ _ _ Hform) in Hp. now injection Hp.
    - unfold parseQuestionId in Hp. rewrite Hm in Hp. discriminate. }
  split; [exact Hfwd|]. split; [|split; [exact Hback|]].
  - intros Hmiss. destruct (parseQuestionId text) as [parsed|] eqn:Hp;
      [|reflexivity].
    destruct (Hback parsed eq_refl) as (ds1 & l & ds2 & Hform & _).
    destruct (missesComponent_not_complete _ _ _ _ Hmiss Hform).
  - vm_compute. reflexivity.
Qed.

(** ** The claims on the filter *)

(** C3.  For every collection [Q] and every filter specification whose
    search text the complete-identifier parser accepts, [filterQuestions]
    returns exactly the questions of [Q], in their order, whose year,
    session and number are the parsed ones; the selected years, the
    sessions and the core-topic flag have no effect on the result. *)
Theorem filterQuestions_complete_id (Q : list Question) text
    (selectedYears : list Z) (sessions : list jsstring) (hisshuOnly : bool)
    (parsed : QuestionId) :
  parseQuestionId text = Some parsed ->
  filterQuestions Q text selectedYears sessions hisshuOnly
  = List.filter (sameTriple parsed) Q
  /\ (forall q,
        In q (filterQuestions Q text selectedYears sessions hisshuOnly)
        <-> In q Q /\ year q = idYear parsed /\ session q = idSession parsed
            /\ number q = idNumber parsed)
  /\ (forall selectedYears' sessions' hisshuOnly',
        filterQuestions Q text selectedYears' sessions' hisshuOnly'
        = filterQuestions Q text selectedYears sessions hisshuOnly).
Proof.
  intros Hp.
  assert (Heq : forall ys ss h,
            filterQuestions Q text ys ss h = List.filter (sameTriple parsed) Q).
  { intros ys ss h. unfold filterQuestions.
    rewrite parseQuestionId_trim, Hp.
    apply filter_ext_bool, matchesId_sameTriple. }
  split; [apply Heq|]. split.
  - intros q. rewrite Heq, filter_In. unfold sameTriple.
    rewrite bool_decide_eq_true. split.
    + intros [Hin [= -> -> ->]]. auto.
    + intros (Hin & -> & -> & ->). auto.
  - intros ys ss h. now rewrite !Heq.
Qed.

(** ** Two-digit prefixes *)

Lemma digit_cases (c : N) :
  isDigit c = true ->
  (c = 48 \/ c = 49 \/ c = 50 \/ c = 51 \/ c = 52
   \/ c = 53 \/ c = 54 \/ c = 55 \/ c = 56 \/ c = 57)%N.
Proof.
  unfold isDigit. rewrite andb_true_iff, !N.leb_le. lia.
Qed.

(** A prefix among 10..13 is [1] followed by one of [0], [1], [2], [3]. *)
Lemma prefix_cases (d1 d2 : N) :
  isDigit d1 = true -> isDigit d2 = true ->
  10 <= decimalValue [d1; d2] <= 13 ->
  d1 = 49%N /\ (d2 = 48 \/ d2 = 49 \/ d2 = 50 \/ d2 = 51)%N.
Proof.
  intros H1 H2. apply digit_cases in H1, H2.
  unfold decimalValue, digitValue. simpl length. simpl Z.of_nat.
  change (10 ^ 1) with 10. change (10 ^ 0) with 1. lia.
Qed.

(** On two digits only the third attempt of the partial parser can
    succeed, and the complete parser fails. *)
Lemma two_digits_parsers (d1 d2 : N) :
  isDigit d1 = true -> isDigit d2 = true ->
  10 <= decimalValue [d1; d2] <= 13 ->
  trim [d1; d2] = [d1; d2]
  /\ parseQuestionId [d1; d2] = None
  /\ parsePartialQuestionId [d1; d2] = decadeAnswer (decimalValue [d1; d2]).
Proof.
  intros H1 H2 Hp.
  destruct (prefix_cases d1 d2 H1 H2 Hp) as [-> [->|[->|[->| ->]]]];
    repeat split; vm_compute; reflexivity.
Qed.

Lemma includesNum_In (xs : list Z) (x : Z) : includesNum xs x = true <-> In x xs.
Proof.
  unfold includesNum. rewrite existsb_exists. split.
  - intros (y & Hin & Heq). apply Z.eqb_eq in Heq. now subst.
  - intros Hin. exists x. split; [exact Hin|apply Z.eqb_refl].
Qed.

Lemma includesStr_In (xs : list jsstring) (x : jsstring) :
  includesStr xs x = true <-> In x xs.
Proof.
  unfold includesStr, strEq. rewrite existsb_exists. split.
  - intros (y & Hin & Heq). apply bool_decide_eq_true in Heq. now subst.
  - intros Hin. exists x. split; [exact Hin|now apply bool_decide_eq_true].
Qed.

(** C6, amended.  For every search text that is exactly two digits, with the
    prefix among 10, 11, 12, 13, [parsePartialQuestionId] answers the
    years [prefix * 10 + 0..9] that lie in 102..118, and no match when
    none does.  So, where no question has the text as its id, the
    filter returns exactly the questions with a year among those; for
    ["11"] these are the questions with a year in 110..118. *)
Theorem two_digit_prefix_years (Q : list Question) text (d1 d2 : N)
    (selectedYears : list Z) (sessions : list jsstring) (hisshuOnly : bool) :
  trim text = [d1; d2] ->
  isDigit d1 = true -> isDigit d2 = true ->
  10 <= decimalValue [d1; d2] <= 13 ->
  exactIdMatch Q (trim text) = None ->
  parsePartialQuestionId text = decadeAnswer (decimalValue [d1; d2])
  /\ (decadeYears (decimalValue [d1; d2]) <> [] ->
      filterQuestions Q text selectedYears sessions hisshuOnly
      = List.filter
          (fun q => includesNum (decadeYears (decimalValue [d1; d2])) (year q))
          Q)
  /\ (decimalValue [d1; d2] = 11 ->
      filterQuestions Q text selectedYears sessions hisshuOnly
      = List.filter (fun q => (110 <=? year q) && (year q <=? 118)) Q).
Proof.
  intros Htrim H1 H2 Hpref Hexact.
  destruct (two_digits_parsers d1 d2 H1 H2 Hpref) as (_ & Hfull & Hpart).
  assert (Hparser : parsePartialQuestionId text
                    = decadeAnswer (decimalValue [d1; d2])).
  { rewrite <- parsePartialQuestionId_trim, Htrim. exact Hpart. }
  assert (Hfilter : decadeYears (decimalValue [d1; d2]) <> [] ->
            filterQuestions Q text selectedYears sessions hisshuOnly
            = List.filter
                (fun q => includesNum (decadeYears (decimalValue [d1; d2]))
                            (year q)) Q).
  { intros Hne. unfold filterQuestions. rewrite Hexact, Htrim, Hfull, Hpart.
    unfold decadeAnswer.
    destruct (decadeYears (decimalValue [d1; d2])) as [|y ys] eqn:Hys;
      [now destruct Hne|].
    apply filter_ext_bool. intros q. unfold matchesPartial. simpl.
    apply andb_true_r. }
  split; [exact Hparser|]. split; [exact Hfilter|].
  intros H11. rewrite Hfilter by (rewrite H11; discriminate).
  rewrite H11. apply filter_ext_bool. intros q. apply eq_true_iff_eq.
  rewrite includesNum_In, andb_true_iff, !Z.leb_le.
  change (decadeYears 11) with [110; 111; 112; 113; 114; 115; 116; 117; 118].
  simpl. lia.
Qed.

(** ** Keywords *)

Lemma splitGo_token cls cur k rest :
  forallb (fun c => negb (cls c)) k = true ->
  splitGo cls false cur (k ++ rest) = splitGo cls false (cur ++ k) rest.
Proof.
  revert cur. induction k as [|c k IH]; intros cur Hk; simpl in *.
  - destruct rest as [|d rest]; now rewrite app_nil_r.
  - apply andb_true_iff in Hk as [Hc Hk]. apply negb_true_iff in Hc.
    rewrite Hc, (IH _ Hk), <- app_assoc. reflexivity.
Qed.

Lemma splitGo_token_start cls b k rest :
  k <> [] -> forallb (fun c => negb (cls c)) k = true ->
  splitGo cls b [] (k ++ rest) = splitGo cls false k rest.
Proof.
  intros Hne Hk. destruct k as [|c k]; [now destruct Hne|]. simpl in *.
  apply andb_true_iff in Hk as [Hc Hk]. apply negb_true_iff in Hc.
  rewrite Hc. apply (splitGo_token cls [c] k rest Hk).
Qed.

Lemma splitGo_gap cls g rest :
  forallb cls g = true ->
  splitGo cls true [] (g ++ rest) = splitGo cls true [] rest.
Proof.
  induction g as [|c g IH]; intros Hg; simpl in *; [reflexivity|].
  apply andb_true_iff in Hg as [Hc Hg]. rewrite Hc. now apply IH.
Qed.

Lemma splitGo_after_gap cls rest :
  stopsAt cls rest = true -> splitGo cls true [] rest = split cls rest.
Proof.
  destruct rest as [|d rest]; simpl; [reflexivity|].
  intros Hd. apply negb_true_iff in Hd. now rewrite Hd.
Qed.

(** A token, a gap, and a rest that does not start in the gap: the
    token is the first keyword and the others are those of the rest. *)
Lemma keywordsOf_cons k g rest :
  isToken k -> isGap g -> stopsAt isKeywordGap rest = true ->
  keywordsOf (k ++ g ++ rest) = k :: keywordsOf rest.
Proof.
  intros [Hk Hkc] [Hg Hgc] Hstop. unfold keywordsOf.
  assert (Hsplit : split isKeywordGap (k ++ g ++ rest)
                   = k :: split isKeywordGap rest).
  { unfold split at 1. destruct (k ++ g ++ rest) as [|c0 r0] eqn:Hs.
    { destruct k; [now destruct Hk|discriminate]. }
    rewrite <- Hs. rewrite splitGo_token_start by assumption.
    destruct g as [|c g]; [now destruct Hg|]. simpl in *.
    apply andb_true_iff in Hgc as [Hc Hgc]. rewrite Hc.
    now rewrite splitGo_gap, splitGo_after_gap. }
  rewrite Hsplit. simpl. destruct k; [now destruct Hk|reflexivity].
Qed.

(** A token alone is the one keyword. *)
Lemma keywordsOf_single k : isToken k -> keywordsOf k = [k].
Proof.
  intros [Hk Hkc].
  assert (Hsplit : split isKeywordGap k = [k]).
  { transitivity (splitGo isKeywordGap false [] (k ++ [])).
    - rewrite app_nil_r. unfold split. destruct k; [now destruct Hk|reflexivity].
    - now rewrite splitGo_token_start. }
  unfold keywordsOf. rewrite Hsplit. simpl.
  destruct k; [now destruct Hk|reflexivity].
Qed.

Lemma token_stops k : isToken k -> stopsAt isKeywordGap k = true.
Proof.
  intros [Hk Hkc]. destruct k as [|c k]; [reflexivity|]. simpl in *.
  now apply andb_true_iff in Hkc as [-> _].
Qed.

Lemma nonempty_length {A : Type} (l : list A) :
  (0 <? length l)%nat = true <-> l <> [].
Proof.
  destruct l; simpl; split; try easy.
Qed.

Lemma token_stops_app k rest :
  isToken k -> stopsAt isKeywordGap (k ++ rest) = true.
Proof.
  intros [Hk Hkc]. destruct k as [|c k]; [now destruct Hk|]. simpl in *.
  now apply andb_true_iff in Hkc as [-> _].
Qed.

Lemma tokensOf_stops s ks : tokensOf s ks -> stopsAt isKeywordGap s = true.
Proof.
  intros [k Hk|k g rest ks' Hk _ _]; [now apply token_stops|].
  now apply token_stops_app.
Qed.

(** The keywords of the code are the tokens of the text. *)
Lemma keywordsOf_tokensOf s ks : tokensOf s ks -> keywordsOf s = ks.
Proof.
  induction 1 as [k Hk|k g rest ks Hk Hg Hrest IH].
  - now apply keywordsOf_single.
  - rewrite keywordsOf_cons; [now rewrite IH|assumption..|].
    eapply tokensOf_stops, Hrest.
Qed.

Lemma splitGo_gap_free cls b cur s :
  forallb (fun c => negb (cls c)) cur = true ->
  Forall (fun k => forallb (fun c => negb (cls c)) k = true)
    (splitGo cls b cur s).
Proof.
  revert b cur. induction s as [|c s IH]; intros b cur Hcur; simpl.
  - now constructor.
  - destruct (cls c) eqn:Hc.
    + destruct b; [now apply IH|]. constructor; [exact Hcur|now apply IH].
    + apply IH. rewrite forallb_app, Hcur. simpl. now rewrite Hc.
Qed.

(** Every keyword is a token: not empty and free of white space. *)
Lemma keywordsOf_are_tokens s : Forall isToken (keywordsOf s).
Proof.
  unfold keywordsOf. apply List.Forall_forall. intros k Hin.
  apply filter_In in Hin as [Hin Hlen]. apply nonempty_length in Hlen.
  split; [exact Hlen|].
  assert (Hall : Forall (fun k => forallb (fun c => negb (isKeywordGap c)) k = true)
                   (split isKeywordGap s)).
  { unfold split. destruct s; [now repeat constructor|].
    now apply splitGo_gap_free. }
  rewrite List.Forall_forall in Hall. now apply Hall.
Qed.

Lemma matchesKeyword_spec q k : matchesKeyword q k = true <-> keywordMatches q k.
Proof.
  unfold matchesKeyword, keywordMatches, containsCI.
  rewrite orb_true_iff, includes_spec, existsb_exists.
  split; (intros [Hq|(c & Hin & Hc)]; [now left|right; exists c]);
    (split; [exact Hin|]); now apply includes_spec.
Qed.

Lemma forallb_Forall_spec {A : Type} (f : A -> bool) (P : A -> Prop) (l : list A) :
  (forall x, f x = true <-> P x) -> forallb f l = true <-> Forall P l.
Proof.
  intros HfP. rewrite forallb_forall, List.Forall_forall.
  split; intros Hl x Hin; apply HfP; now apply Hl.
Qed.

(** The callback of the general filter, read as the specification
    reads it. *)
Lemma passesFilters_spec trimmed ys ss h q :
  trimmed <> [] ->
  passesFilters trimmed ys ss h q = true
  <-> passesStructured ys ss h q
      /\ Forall (keywordMatches q) (keywordsOf trimmed).
Proof.
  intros Hne. unfold passesFilters, passesStructured.
  assert (Htruthy : truthy trimmed = true) by (now destruct trimmed).
  rewrite Htruthy.
  rewrite <- (forallb_Forall_spec _ _ _ (matchesKeyword_spec q)).
  rewrite <- includesNum_In, <- includesStr_In, <- !nonempty_length.
  destruct h, (isHisshu (year q) (session q) (number q)),
    (0 <? length ys)%nat, (includesNum ys (year q)),
    (0 <? length ss)%nat, (includesStr ss (session q)),
    (forallb (matchesKeyword q) (keywordsOf trimmed)); simpl;
    split; try easy; intros [(? & ? & ?) ?]; auto; try discriminate.
Qed.

(** ** Case *)

Lemma asciiLower_same (a b : N) :
  asciiLower a = asciiLower b <-> CaseSpec.sameLetter a b.
Proof.
  unfold asciiLower, CaseSpec.sameLetter.
  destruct (N.leb_spec 65 a), (N.leb_spec a 90), (N.leb_spec 65 b),
    (N.leb_spec b 90); simpl; lia.
Qed.

Lemma map_asciiLower_same (s t : jsstring) :
  map asciiLower s = map asciiLower t <-> CaseSpec.equalIgnoringCase s t.
Proof.
  unfold CaseSpec.equalIgnoringCase. revert t.
  induction s as [|a s IH]; intros [|b t]; simpl.
  - split; [constructor|reflexivity].
  - split; [discriminate|inversion 1].
  - split; [discriminate|inversion 1].
  - split.
    + intros [= Hab Hst]. constructor; [now apply asciiLower_same|now apply IH].
    + inversion 1 as [|? ? ? ? Hab Hst]; subst.
      apply asciiLower_same in Hab. apply IH in Hst. congruence.
Qed.

Lemma toLowerCase_ascii (s : jsstring) :
  forallb isAscii s = true -> toLowerCase s = map asciiLower s.
Proof. intros Hs. unfold toLowerCase. now rewrite Hs. Qed.

Lemma occursIn_map (f : N -> N) (s t : jsstring) :
  occursIn (map f t) (map f s)
  <-> exists pre mid post, s = pre ++ mid ++ post /\ map f mid = map f t.
Proof.
  unfold occursIn. split.
  - intros (pre' & post' & Heq).
    apply map_eq_app in Heq as (pre & rest & -> & _ & Hrest).
    apply map_eq_app in Hrest as (mid & post & -> & Hmid & _).
    exists pre, mid, post. split; [reflexivity|exact Hmid].
  - intros (pre & mid & post & -> & Hmid).
    exists (map f pre), (map f post). now rewrite !map_app, Hmid.
Qed.

(** On ASCII text, the comparison of the code is the comparison case
    aside. *)
Lemma containsCI_ascii (s t : jsstring) :
  forallb isAscii s = true -> forallb isAscii t = true ->
  containsCI s t <-> CaseSpec.occursIgnoringCase t s.
Proof.
  intros Hs Ht. unfold containsCI, CaseSpec.occursIgnoringCase.
  rewrite (toLowerCase_ascii s Hs), (toLowerCase_ascii t Ht), occursIn_map.
  split; intros (pre & mid & post & Heq & Hmid); exists pre, mid, post;
    (split; [exact Heq|]); now apply map_asciiLower_same.
Qed.

Lemma equalCI_ascii (s t : jsstring) :
  forallb isAscii s = true -> forallb isAscii t = true ->
  toLowerCase s = toLowerCase t <-> CaseSpec.equalIgnoringCase s t.
Proof.
  intros Hs Ht.
  rewrite (toLowerCase_ascii s Hs), (toLowerCase_ascii t Ht).
  apply map_asciiLower_same.
Qed.

(** C5.  In the general branch of the filter (the search text is no
    complete identifier, no id of a question, no partial identifier)
    and with a search text that is not empty once trimmed, the text is
    split on runs of ASCII or full-width white space into tokens, and a
    question that passes the core-topic, year and session restrictions
    is in the result exactly when every token occurs, case aside, in
    its text or in the text of one of its choices; with no such
    restriction set this is the whole condition.  In particular, with
    two tokens, a question that has only one of them is left out.  On
    ASCII text "case aside" is literal: a token is matched when a part
    of the text equals it but for capitals and small letters. *)
Theorem filterQuestions_keywords (Q : list Question) text
    (selectedYears : list Z) (sessions : list jsstring) (hisshuOnly : bool) :
  trim text <> [] ->
  parseQuestionId text = None ->
  exactIdMatch Q (trim text) = None ->
  parsePartialQuestionId text = None ->
  (forall q,
      In q (filterQuestions Q text selectedYears sessions hisshuOnly)
      <-> In q Q /\ passesStructured selectedYears sessions hisshuOnly q
          /\ Forall (keywordMatches q) (keywordsOf (trim text)))
  /\ (forall q,
        In q (filterQuestions Q text [] [] false)
        <-> In q Q /\ Forall (keywordMatches q) (keywordsOf (trim text)))
  /\ Forall isToken (keywordsOf (trim text))
  /\ (forall ks, tokensOf (trim text) ks -> keywordsOf (trim text) = ks)
  /\ (forall k1 g k2,
        trim text = k1 ++ g ++ k2 -> isToken k1 -> isGap g -> isToken k2 ->
        keywordsOf (trim text) = [k1; k2]
        /\ forall q,
             ~ keywordMatches q k1 \/ ~ keywordMatches q k2 ->
             ~ In q (filterQuestions Q text selectedYears sessions hisshuOnly))
  /\ (forall q token,
        forallb isAscii token = true ->
        forallb isAscii (questionText q) = true ->
        Forall (fun c => forallb isAscii c = true) (map snd (choices q)) ->
        keywordMatches q token
        <-> CaseSpec.occursIgnoringCase token (questionText q)
            \/ exists c, In c (map snd (choices q))
                         /\ CaseSpec.occursIgnoringCase token c).
Proof.
  intros Hne Hfull Hexact Hpart.
  assert (Hgen : forall ys ss h q,
            In q (filterQuestions Q text ys ss h)
            <-> In q Q /\ passesStructured ys ss h q
                /\ Forall (keywordMatches q) (keywordsOf (trim text))).
  { intros ys ss h q. unfold filterQuestions.
    rewrite parseQuestionId_trim, Hfull, Hexact,
      parsePartialQuestionId_trim, Hpart.
    rewrite filter_In, (passesFilters_spec _ _ _ _ _ Hne). reflexivity. }
  split; [apply Hgen|]. split; [|split; [|split; [|split]]].
  - intros q. rewrite Hgen. unfold passesStructured. split.
    + intros (Hin & _ & Hk). auto.
    + intros (Hin & Hk). repeat split; try easy.
  - apply keywordsOf_are_tokens.
  - intros ks. apply keywordsOf_tokensOf.
  - intros k1 g k2 Hsplit Hk1 Hg Hk2.
    assert (Hks : keywordsOf (trim text) = [k1; k2]).
    { apply keywordsOf_tokensOf. rewrite Hsplit.
      now apply tokens_more; [| |apply tokens_last]. }
    split; [exact Hks|].
    intros q Hmiss Hin. apply Hgen in Hin as (_ & _ & Hall).
    rewrite Hks in Hall. inversion_clear Hall as [|? ? Hm1 Hall'].
    inversion_clear Hall' as [|? ? Hm2 _]. tauto.
  - intros q token Htok Htext Hchoices. unfold keywordMatches.
    rewrite (containsCI_ascii _ _ Htext Htok).
    rewrite List.Forall_forall in Hchoices.
    split; (intros [Hq|(c & Hin & Hc)]; [now left|right; exists c]);
      (split; [exact Hin|]);
      now apply (containsCI_ascii _ _ (Hchoices c Hin) Htok).
Qed.

(** ** Well-formed ids and the exact-id lookup *)

Lemma asciiLower_digit (a d : N) :
  asciiLower a = d -> isDigit d = true -> a = d.
Proof.
  unfold asciiLower, isDigit.
  destruct ((65 <=? a)%N && (a <=? 90)%N) eqn:Hup; [|easy].
  apply andb_true_iff in Hup as [Hlo Hhi]. apply N.leb_le in Hlo, Hhi.
  intros <-. rewrite andb_true_iff, !N.leb_le. lia.
Qed.

Lemma trim_two_digits (d1 d2 : N) :
  isDigit d1 = true -> isDigit d2 = true -> trim [d1; d2] = [d1; d2].
Proof.
  intros H1 H2. apply digit_not_whitespace in H1, H2.
  unfold trim. simpl. rewrite H1. simpl. now rewrite H2.
Qed.

(** In a corpus whose ids are ASCII and have the complete form, the
    exact-id lookup on a two-digit text finds nothing. *)
Lemma exactIdMatch_two_digits (Q : list Question) (d1 d2 : N) :
  isDigit d1 = true -> isDigit d2 = true ->
  Forall (fun q => forallb isAscii (id q) = true
                   /\ parseQuestionId (id q) <> None) Q ->
  exactIdMatch Q [d1; d2] = None.
Proof.
  intros H1 H2 Hwf. unfold exactIdMatch. simpl truthy. cbv iota.
  assert (Hnone : List.filter (matchesExactId [d1; d2]) Q = []).
  { induction Hwf as [|q Q [Hascii Hparse] _ IH]; [reflexivity|].
    simpl. rewrite IH.
    destruct (matchesExactId [d1; d2] q) eqn:Hm; [exfalso|reflexivity].
    unfold matchesExactId, strEq in Hm. apply bool_decide_eq_true in Hm.
    unfold toLowerCase in Hm. rewrite Hascii in Hm. simpl in Hm.
    rewrite (digit_is_ascii d1 H1), (digit_is_ascii d2 H2) in Hm. simpl in Hm.
    assert (Hl1 : asciiLower d1 = d1).
    { unfold asciiLower. destruct ((65 <=? d1)%N && (d1 <=? 90)%N) eqn:Hup;
        [|reflexivity].
      revert H1 Hup. unfold isDigit. rewrite !andb_true_iff, !N.leb_le. lia. }
    assert (Hl2 : asciiLower d2 = d2).
    { unfold asciiLower. destruct ((65 <=? d2)%N && (d2 <=? 90)%N) eqn:Hup;
        [|reflexivity].
      revert H2 Hup. unfold isDigit. rewrite !andb_true_iff, !N.leb_le. lia. }
    rewrite Hl1, Hl2 in Hm.
    destruct (id q) as [|a [|b [|c r]]] eqn:Hid; try discriminate.
    simpl in Hm. injection Hm as Ha Hb.
    apply asciiLower_digit in Ha, Hb; [|assumption..]. subst a b.
    apply Hparse. unfold parseQuestionId.
    destruct (matchPieces pattern (trim [d1; d2])) as [caps|] eqn:Hmatch;
      [|reflexivity].
    destruct (pattern_sound _ _ Hmatch) as (ds1 & l & ds2 & _ & Hform).
    rewrite trim_two_digits in Hform by assumption.
    destruct (missesComponent_not_complete [d1; d2] ds1 l ds2); [|exact Hform].
    apply (missing_session [d1; d2] [] []); [|reflexivity..].
    simpl. now rewrite H1, H2. }
  now rewrite Hnone.
Qed.

End QuestionServiceFacts.

(** * The claims at concrete inputs *)

Import QuestionService.

(** ["112-B-48"] with the year 105, session A and core topics selected:
    the one question 112-B-48 of the corpus all the same. *)
Lemma filterQuestions_complete_id_witness :
  @parseQuestionId asciiHost (js "112-B-48")
  = Some {| idYear := 112; idSession := js "B"; idNumber := 48 |}
  /\ @filterQuestions asciiHost sampleCorpus (js "112-B-48") [105] [js "A"] true
     = [ q112B48 ].
Proof.
  assert (Hp : @parseQuestionId asciiHost (js "112-B-48")
               = Some {| idYear := 112; idSession := js "B"; idNumber := 48 |})
    by (vm_compute; reflexivity).
  split; [exact Hp|].
  destruct (@filterQuestions_complete_id asciiHost sampleCorpus
              (js "112-B-48") [105] [js "A"] true _ Hp) as (Heq & _ & _).
  rewrite Heq. vm_compute. reflexivity.
Defined.

(** [" 112-b_048 "] parses to 112, B, 48; ["112 48"] has no session
    letter and gets no match. *)
Lemma parseQuestionId_complete_form_witness :
  completeForm (trim (js " 112-b_048 ")) (js "112") 98 (js "048")
  /\ @parseQuestionId asciiHost (js " 112-b_048 ")
     = Some {| idYear := 112; idSession := js "B"; idNumber := 48 |}
  /\ missesComponent (trim (js "112 48"))
  /\ @parseQuestionId asciiHost (js "112 48") = None.
Proof.
  assert (Hform : completeForm (trim (js " 112-b_048 ")) (js "112") 98 (js "048")).
  { exists (js "-"), (js "_"). vm_compute. repeat split; try reflexivity; lia. }
  assert (Hmiss : missesComponent (trim (js "112 48"))).
  { change (trim (js "112 48")) with (js "112" ++ js " " ++ js "48").
    apply missing_session; reflexivity. }
  destruct (@parseQuestionId_complete_form asciiHost (js " 112-b_048 "))
    as (Hfwd & _).
  destruct (@parseQuestionId_complete_form asciiHost (js "112 48"))
    as (_ & Hnone & _).
  split; [exact Hform|]. split; [exact (Hfwd _ _ _ Hform)|].
  split; [exact Hmiss|exact (Hnone Hmiss)].
Defined.

(** C6 fails as stated: in a collection one of whose questions has the
    id ["11"], the search ["11"] returns that question alone, of year
    105, and leaves out the questions of the years 110..118; the
    lookup by id comes before the partial identifier. *)
Lemma two_digit_text_is_an_id :
  @parsePartialQuestionId asciiHost (js "11")
  = Some {| years := [110; 111; 112; 113; 114; 115; 116; 117; 118];
            partialSession := None |}
  /\ @filterQuestions asciiHost Examples.twoDigitIdCorpus (js "11") [] [] false
     = [ Examples.q11 ]
  /\ year Examples.q11 = 105
  /\ ~ (forall q,
          In q (@filterQuestions asciiHost Examples.twoDigitIdCorpus (js "11")
                  [] [] false)
          <-> In q Examples.twoDigitIdCorpus /\ 110 <= year q <= 118).
Proof.
  split; [vm_compute; reflexivity|].
  assert (Heq : @filterQuestions asciiHost Examples.twoDigitIdCorpus (js "11")
                  [] [] false = [ Examples.q11 ])
    by (vm_compute; reflexivity).
  split; [exact Heq|]. split; [reflexivity|].
  intros Hclaim. rewrite Heq in Hclaim.
  destruct (proj1 (Hclaim Examples.q11) (or_introl eq_refl)) as [_ Hyear].
  simpl in Hyear. lia.
Qed.

(** ["11"] on the corpus: the years 110..118, and every question but
    the one of year 105, whatever else is selected. *)
Lemma two_digit_prefix_years_witness :
  trim (js "11") = [49; 49]%N
  /\ @exactIdMatch asciiHost sampleCorpus (trim (js "11")) = None
  /\ @parsePartialQuestionId asciiHost (js "11")
     = Some {| years := [110; 111; 112; 113; 114; 115; 116; 117; 118];
               partialSession := None |}
  /\ @filterQuestions asciiHost sampleCorpus (js "11") [105] [js "A"] true
     = [ q112B48; q112A48; q110C3; q118D20 ].
Proof.
  assert (Htrim : trim (js "11") = [49; 49]%N) by reflexivity.
  assert (Hexact : @exactIdMatch asciiHost sampleCorpus (trim (js "11")) = None)
    by (vm_compute; reflexivity).
  assert (Hpref : 10 <= decimalValue [49; 49]%N <= 13) by (vm_compute; easy).
  destruct (@two_digit_prefix_years asciiHost sampleCorpus (js "11") 49 49
              [105] [js "A"] true Htrim eq_refl eq_refl Hpref Hexact)
    as (Hparse & _ & Hfilter).
  split; [exact Htrim|]. split; [exact Hexact|].
  split; [exact Hparse|]. rewrite (Hfilter eq_refl). vm_compute. reflexivity.
Defined.

(** Two keywords, a full-width space between them: the question with
    the first in its text and the second in a choice is found; the ones
    with only the first, or only the second, are not.  And a search in
    capitals and small letters, ["ENAMEL dentin"]: the question with the
    text ["Enamel"] and the choice ["Dentin"] is found, the others are
    not. *)
Lemma filterQuestions_keywords_witness :
  trim twoKeywords <> []
  /\ @parseQuestionId asciiHost twoKeywords = None
  /\ @exactIdMatch asciiHost sampleCorpus (trim twoKeywords) = None
  /\ @parsePartialQuestionId asciiHost twoKeywords = None
  /\ keywordsOf (trim twoKeywords) = [ushoku; kadou]
  /\ In q112B48 (@filterQuestions asciiHost sampleCorpus twoKeywords [] [] false)
  /\ ~ In q112A48 (@filterQuestions asciiHost sampleCorpus twoKeywords [] [] false)
  /\ ~ In q105A1 (@filterQuestions asciiHost sampleCorpus twoKeywords [] [] false)
  /\ keywordsOf (trim Examples.mixedCase) = [js "ENAMEL"; js "dentin"]
  /\ CaseSpec.occursIgnoringCase (js "ENAMEL") (questionText q110C3)
  /\ In q110C3
       (@filterQuestions asciiHost sampleCorpus Examples.mixedCase [] [] false)
  /\ ~ In q112B48
         (@filterQuestions asciiHost sampleCorpus Examples.mixedCase [] [] false)
  /\ @filterQuestions asciiHost sampleCorpus Examples.mixedCase [] [] false
     = [ q110C3 ].
Proof.
  assert (Hne : trim twoKeywords <> []) by (vm_compute; discriminate).
  assert (Hfull : @parseQuestionId asciiHost twoKeywords = None)
    by (vm_compute; reflexivity).
  assert (Hexact : @exactIdMatch asciiHost sampleCorpus (trim twoKeywords) = None)
    by (vm_compute; reflexivity).
  assert (Hpart : @parsePartialQuestionId asciiHost twoKeywords = None)
    by (vm_compute; reflexivity).
  destruct (@filterQuestions_keywords asciiHost sampleCorpus twoKeywords
              [] [] false Hne Hfull Hexact Hpart) as (_ & Hiff & _ & _ & Htwo & _).
  destruct (Htwo ushoku [0x3000%N] kadou) as (Hks & Hout).
  { reflexivity. }
  { split; [discriminate|reflexivity]. }
  { split; [discriminate|reflexivity]. }
  { split; [discriminate|reflexivity]. }
  assert (Hne' : trim Examples.mixedCase <> []) by (vm_compute; discriminate).
  assert (Hfull' : @parseQuestionId asciiHost Examples.mixedCase = None)
    by (vm_compute; reflexivity).
  assert (Hexact' : @exactIdMatch asciiHost sampleCorpus
                      (trim Examples.mixedCase) = None)
    by (vm_compute; reflexivity).
  assert (Hpart' : @parsePartialQuestionId asciiHost Examples.mixedCase = None)
    by (vm_compute; reflexivity).
  destruct (@filterQuestions_keywords asciiHost sampleCorpus Examples.mixedCase
              [] [] false Hne' Hfull' Hexact' Hpart')
    as (_ & Hiff' & _ & _ & Htwo' & Hcase).
  destruct (Htwo' (js "ENAMEL") (js " ") (js "dentin")) as (Hks' & Hout').
  { reflexivity. }
  { split; [discriminate|reflexivity]. }
  { split; [discriminate|reflexivity]. }
  { split; [discriminate|reflexivity]. }
  assert (Hupper : CaseSpec.occursIgnoringCase (js "ENAMEL")
                     (questionText q110C3)).
  { exists [], (js "Enamel"), []. split; [reflexivity|].
    unfold CaseSpec.equalIgnoringCase.
    repeat constructor; unfold CaseSpec.sameLetter; simpl; lia. }
  assert (Hlower : CaseSpec.occursIgnoringCase (js "dentin") (js "Dentin")).
  { exists [], (js "Dentin"), []. split; [reflexivity|].
    unfold CaseSpec.equalIgnoringCase.
    repeat constructor; unfold CaseSpec.sameLetter; simpl; lia. }
  assert (Hfound : In q110C3
            (@filterQuestions asciiHost sampleCorpus Examples.mixedCase
               [] [] false)).
  { apply Hiff'. split; [right; right; now left|]. rewrite Hks'.
    constructor; [|constructor; [|constructor]].
    - apply Hcase; [reflexivity|reflexivity|repeat constructor|now left].
    - apply Hcase; [reflexivity|reflexivity|repeat constructor|].
      right. exists (js "Dentin"). split; [now left|exact Hlower]. }
  split; [exact Hne|]. split; [exact Hfull|]. split; [exact Hexact|].
  split; [exact Hpart|]. split; [exact Hks|].
  split; [|split; [|split; [|split; [|split; [|split; [|split]]]]]].
  - apply Hiff. split; [now left|]. rewrite Hks.
    constructor; [|constructor; [|constructor]];
      apply (@matchesKeyword_spec asciiHost); vm_compute; reflexivity.
  - apply Hout. right. intros Hm.
    apply (@matchesKeyword_spec asciiHost) in Hm. vm_compute in Hm. discriminate.
  - apply Hout. left. intros Hm.
    apply (@matchesKeyword_spec asciiHost) in Hm. vm_compute in Hm. discriminate.
  - exact Hks'.
  - exact Hupper.
  - exact Hfound.
  - apply Hout'. left. intros Hm.
    apply (@matchesKeyword_spec asciiHost) in Hm. vm_compute in Hm. discriminate.
  - vm_compute. reflexivity.
Defined.

(** * Further properties of the question service *)

Section ServiceMore.
Import ServiceSpec.
Context `{Host}.

Implicit Types (q : Question) (text t : jsstring).

(** ** The three attempts of the partial parser *)

Lemma patternWithSession_matches t ds l :
  sessionForm t ds l -> matchPieces patternWithSession t = Some [ds; [l]].
Proof.
  intros (sep1 & sep2 & -> & Hd & Hlen & Hs1 & Hl & Hs2).
  unfold patternWithSession.
  apply (matchPieces_greedy (mkPiece isDigit 2 (Some 3%nat) true)).
  { unfold fitsPiece. simpl. repeat split; [exact Hd|lia..]. }
  { left. simpl pclass. apply stopsAt_app_cons.
    - eapply forallb_impl; [|exact Hs1]. intros c Hc. simpl.
      now rewrite (separator_not_digit c Hc).
    - now apply letter_not_digit. }
  apply (matchPieces_greedy (mkPiece isSeparator 0 None false)).
  { unfold fitsPiece. simpl. repeat split; [exact Hs1|lia]. }
  { left. simpl. apply negb_true_iff. now apply letter_not_separator. }
  apply (matchPieces_greedy (mkPiece isSessionLetter 1 (Some 1%nat) true) _ [l]).
  { unfold fitsPiece. simpl. rewrite Hl. repeat split; lia. }
  { now right. }
  rewrite <- (app_nil_r sep2).
  apply (matchPieces_greedy (mkPiece isSeparator 0 None false) [] sep2 [] []).
  { unfold fitsPiece. simpl. repeat split; [exact Hs2|lia]. }
  { now left. }
  reflexivity.
Qed.

Lemma patternWithSession_sound t caps :
  matchPieces patternWithSession t = Some caps ->
  exists ds l, caps = [ds; [l]] /\ sessionForm t ds l.
Proof.
  intros Hm. apply matchPieces_sound in Hm. unfold patternWithSession in Hm.
  inversion Hm as [|p1 r1 ds s1 c1 (Hd & Hmin1 & Hmax1) Hm1]; subst; clear Hm.
  inversion Hm1 as [|p2 r2 sep1 s2 c2 (Hs1 & _ & _) Hm2]; subst; clear Hm1.
  inversion Hm2 as [|p3 r3 ls s3 c3 (Hl & Hmin3 & Hmax3) Hm3]; subst; clear Hm2.
  inversion Hm3 as [|p4 r4 sep2 s4 c4 (Hs2 & _ & _) Hm4]; subst; clear Hm3.
  inversion Hm4; subst; clear Hm4.
  simpl in *.
  destruct ls as [|l [|l' ls]]; simpl in Hmin3, Hmax3; try lia.
  simpl in Hl. rewrite andb_true_r in Hl.
  exists ds, l. split; [reflexivity|].
  exists sep1, sep2. rewrite app_nil_r. repeat split; auto; lia.
Qed.

(** A pattern [^(\d{n})$]. *)
Lemma digitsOnly_matches (n : nat) t :
  forallb isDigit t = true -> length t = n ->
  matchPieces [mkPiece isDigit n (Some n) true] t = Some [t].
Proof.
  intros Hd Hlen. rewrite <- (app_nil_r t) at 1.
  apply (matchPieces_greedy (mkPiece isDigit n (Some n) true) [] t [] []).
  - unfold fitsPiece. simpl. repeat split; [exact Hd|lia..].
  - now left.
  - reflexivity.
Qed.

Lemma digitsOnly_sound (n : nat) t caps :
  matchPieces [mkPiece isDigit n (Some n) true] t = Some caps ->
  caps = [t] /\ forallb isDigit t = true /\ length t = n.
Proof.
  intros Hm. apply matchPieces_sound in Hm.
  inversion Hm as [|p1 r1 ds s1 c1 (Hd & Hmin & Hmax) Hm1]; subst; clear Hm.
  inversion Hm1; subst; clear Hm1. simpl in *.
  rewrite app_nil_r. repeat split; [exact Hd|lia].
Qed.

Lemma sessionForm_letter t ds l :
  sessionForm t ds l -> In l t /\ isSessionLetter l = true.
Proof.
  intros (sep1 & sep2 & -> & _ & _ & _ & Hl & _). split; [|exact Hl].
  apply in_or_app. right. apply in_or_app. right. now left.
Qed.

Lemma digits_no_letter t l :
  forallb isDigit t = true -> In l t -> isSessionLetter l = true -> False.
Proof.
  intros Hd Hin Hl. rewrite forallb_forall in Hd. apply Hd in Hin.
  rewrite (digit_not_letter l Hin) in Hl. discriminate.
Qed.

(** On the form "year, session" the two digit-only attempts fail. *)
Lemma sessionForm_not_digits t ds l :
  sessionForm t ds l ->
  partialYearFull t = None /\ partialYearPrefix t = None.
Proof.
  intros Hform. destruct (sessionForm_letter _ _ _ Hform) as [Hin Hl].
  unfold partialYearFull, partialYearPrefix, patternYearFull, patternYearPartial.
  split.
  - destruct (matchPieces _ t) as [caps|] eqn:Hm; [|reflexivity].
    apply digitsOnly_sound in Hm as (_ & Hd & _).
    destruct (digits_no_letter t l Hd Hin Hl).
  - destruct (matchPieces _ t) as [caps|] eqn:Hm; [|reflexivity].
    apply digitsOnly_sound in Hm as (_ & Hd & _).
    destruct (digits_no_letter t l Hd Hin Hl).
Qed.

(** On digits alone the attempt with a session fails. *)
Lemma digits_not_sessionForm t :
  forallb isDigit t = true -> partialWithSession t = None.
Proof.
  intros Hd. unfold partialWithSession.
  destruct (matchPieces patternWithSession t) as [caps|] eqn:Hm; [|reflexivity].
  apply patternWithSession_sound in Hm as (ds & l & _ & Hform).
  destruct (sessionForm_letter _ _ _ Hform) as [Hin Hl].
  destruct (digits_no_letter t l Hd Hin Hl).
Qed.

Lemma partialWithSession_form t ds l :
  sessionForm t ds l ->
  partialWithSession t
  = if (100 <=? decimalValue ds) && (decimalValue ds <=? 130)
    then Some {| years := [decimalValue ds];
                 partialSession := Some [asciiUpper l] |}
    else None.
Proof.
  intros Hform. unfold partialWithSession.
  rewrite (patternWithSession_matches _ _ _ Hform).
  destruct Hform as (sep1 & sep2 & _ & Hd & _ & _ & Hl & _).
  now rewrite parseInt_decimal, toUpperCase_letter.
Qed.

(** X1.  On a text whose trimmed form is two or three digits,
    separators, one letter a-d and separators, the partial parser
    answers the one year read from the digits and the letter in upper
    case when the year is in 100..130, and no match otherwise. *)
Theorem parsePartial_year_session text ds l :
  sessionForm (trim text) ds l ->
  parsePartialQuestionId text
  = if (100 <=? decimalValue ds) && (decimalValue ds <=? 130)
    then Some {| years := [decimalValue ds];
                 partialSession := Some [asciiUpper l] |}
    else None.
Proof.
  intros Hform. unfold parsePartialQuestionId.
  rewrite (partialWithSession_form _ _ _ Hform).
  destruct ((100 <=? decimalValue ds) && (decimalValue ds <=? 130));
    [reflexivity|].
  destruct (sessionForm_not_digits _ _ _ Hform) as [-> ->]. reflexivity.
Qed.

(** X2.  On a text whose trimmed form is exactly three digits, the
    partial parser answers the one year they denote when it is in
    100..130, and no match otherwise. *)
Theorem parsePartial_three_digits text :
  forallb isDigit (trim text) = true ->
  length (trim text) = 3%nat ->
  parsePartialQuestionId text
  = if (100 <=? decimalValue (trim text)) && (decimalValue (trim text) <=? 130)
    then Some {| years := [decimalValue (trim text)]; partialSession := None |}
    else None.
Proof.
  intros Hd Hlen. unfold parsePartialQuestionId.
  rewrite (digits_not_sessionForm _ Hd).
  unfold partialYearFull, patternYearFull.
  rewrite (digitsOnly_matches 3 _ Hd Hlen), parseInt_decimal by exact Hd.
  destruct ((100 <=? decimalValue (trim text))
            && (decimalValue (trim text) <=? 130)); [reflexivity|].
  unfold partialYearPrefix, patternYearPartial.
  destruct (matchPieces _ (trim text)) as [caps|] eqn:Hm; [|reflexivity].
  apply digitsOnly_sound in Hm as (_ & _ & Hlen2). lia.
Qed.

Lemma collectYears_range pref i n acc :
  Forall (fun y => 102 <= y <= 118) acc ->
  Forall (fun y => 102 <= y <= 118) (collectYears pref i n acc).
Proof.
  revert i acc. induction n as [|n IH]; intros i acc Hacc; simpl; [exact Hacc|].
  apply IH.
  destruct ((102 <=? pref * 10 + i) && (pref * 10 + i <=? 118)) eqn:Hin;
    [|exact Hacc].
  apply andb_true_iff in Hin as [Hlo Hhi]. apply Z.leb_le in Hlo, Hhi.
  apply Forall_app. split; [exact Hacc|]. repeat constructor; lia.
Qed.

Lemma upper_letter_session l :
  isSessionLetter l = true ->
  In [asciiUpper l] [js "A"; js "B"; js "C"; js "D"].
Proof.
  intros Hl.
  assert (Hcases : (l = 97 \/ l = 98 \/ l = 99 \/ l = 100
                    \/ l = 65 \/ l = 66 \/ l = 67 \/ l = 68)%N).
  { revert Hl. unfold isSessionLetter.
    rewrite orb_true_iff, !andb_true_iff, !N.leb_le. lia. }
  destruct Hcases as [->|[->|[->|[->|[->|[->|[->| ->]]]]]]]; simpl; auto.
Qed.

(** X3.  Whatever the partial parser answers is usable: at least one
    year, every year within 100..130, and the session, when there is
    one, is A, B, C or D. *)
Theorem parsePartial_result_wellformed text (r : PartialId) :
  parsePartialQuestionId text = Some r ->
  years r <> []
  /\ Forall (fun y => 100 <= y <= 130) (years r)
  /\ (forall s, partialSession r = Some s ->
        In s [js "A"; js "B"; js "C"; js "D"]).
Proof.
  unfold parsePartialQuestionId.
  destruct (partialWithSession (trim text)) as [r1|] eqn:H1.
  { intros [= <-]. unfold partialWithSession in H1.
    destruct (matchPieces patternWithSession (trim text)) as [caps|] eqn:Hm;
      [|discriminate].
    destruct (patternWithSession_sound _ _ Hm) as (ds & l & -> & Hform).
    destruct ((100 <=? parseInt ds) && (parseInt ds <=? 130)) eqn:Hr;
      [|discriminate].
    injection H1 as <-. simpl.
    apply andb_true_iff in Hr as [Hlo Hhi]. apply Z.leb_le in Hlo, Hhi.
    split; [discriminate|]. split; [repeat constructor; lia|].
    intros s [= <-]. destruct (sessionForm_letter _ _ _ Hform) as [_ Hl].
    rewrite (toUpperCase_letter l Hl). now apply upper_letter_session. }
  destruct (partialYearFull (trim text)) as [r2|] eqn:H2.
  { intros [= <-]. unfold partialYearFull in H2.
    destruct (matchPieces patternYearFull (trim text)) as [[|g1 [|g2 caps]]|];
      try discriminate.
    destruct ((100 <=? parseInt g1) && (parseInt g1 <=? 130)) eqn:Hr;
      [|discriminate].
    injection H2 as <-. simpl.
    apply andb_true_iff in Hr as [Hlo Hhi]. apply Z.leb_le in Hlo, Hhi.
    split; [discriminate|]. split; [repeat constructor; lia|]. discriminate. }
  intros H3. unfold partialYearPrefix in H3.
  destruct (matchPieces patternYearPartial (trim text)) as [[|g1 [|g2 caps]]|];
    try discriminate.
  cbv zeta in H3.
  destruct ((10 <=? parseInt g1) && (parseInt g1 <=? 13)); [|discriminate].
  assert (Hrange : Forall (fun y => 102 <= y <= 118)
                     (collectYears (parseInt g1) 0 10 []))
    by (apply collectYears_range; constructor).
  remember (collectYears (parseInt g1) 0 10 []) as ys eqn:Hys.
  destruct (0 <? length ys)%nat eqn:Hlen; [|discriminate].
  injection H3 as <-. cbn [years partialSession].
  split; [|split; [|discriminate]].
  - intros Hnil. rewrite Hnil in Hlen. discriminate.
  - eapply Forall_impl; [exact Hrange|]. simpl. intros y. lia.
Qed.

(** X4.  No text is both a complete and a partial identifier: of the
    two parsers at most one answers. *)
Theorem parsers_exclusive text :
  parseQuestionId text = None \/ parsePartialQuestionId text = None.
Proof.
  destruct (parseQuestionId text) as [parsed|] eqn:Hp; [right|now left].
  unfold parseQuestionId in Hp.
  destruct (matchPieces pattern (trim text)) as [caps|] eqn:Hm; [|discriminate].
  destruct (pattern_sound _ _ Hm) as (ds1 & l & ds2 & _ & Hform).
  unfold parsePartialQuestionId.
  assert (H1 : partialWithSession (trim text) = None).
  { unfold partialWithSession.
    destruct (matchPieces patternWithSession (trim text)) as [caps'|] eqn:Hm';
      [|reflexivity].
    apply patternWithSession_sound in Hm' as (ds & l' & _ & Hsess).
    destruct Hsess as (sep1 & sep2 & Ht & Hd & _ & Hs1 & Hl & Hs2).
    destruct (missesComponent_not_complete (trim text) ds1 l ds2);
      [|exact Hform].
    rewrite Ht. now apply missing_number. }
  assert (Hdigits : forall n caps',
            matchPieces [mkPiece isDigit n (Some n) true] (trim text)
            = Some caps' -> False).
  { intros n caps' Hm'. apply digitsOnly_sound in Hm' as (_ & Hd & _).
    destruct (missesComponent_not_complete (trim text) ds1 l ds2);
      [|exact Hform].
    rewrite <- (app_nil_r (trim text)).
    now apply (missing_session (trim text) [] []). }
  rewrite H1. unfold partialYearFull, partialYearPrefix,
    patternYearFull, patternYearPartial.
  destruct (matchPieces [mkPiece isDigit 3 (Some 3%nat) true] (trim text))
    as [caps'|] eqn:Hm2; [destruct (Hdigits _ _ Hm2)|].
  destruct (matchPieces [mkPiece isDigit 2 (Some 2%nat) true] (trim text))
    as [caps'|] eqn:Hm3; [destruct (Hdigits _ _ Hm3)|reflexivity].
Qed.

(** ** Every branch of the filter *)

Lemma filter_idem {A : Type} (f : A -> bool) (l : list A) :
  List.filter f (List.filter f l) = List.filter f l.
Proof.
  induction l as [|x l IH]; [reflexivity|]. simpl.
  destruct (f x) eqn:Hx; [|exact IH]. simpl. now rewrite Hx, IH.
Qed.

Lemma filter_nil_filter {A : Type} (f g : A -> bool) (l : list A) :
  List.filter f l = [] -> List.filter f (List.filter g l) = [].
Proof.
  induction l as [|x l IH]; [reflexivity|]. simpl.
  destruct (f x) eqn:Hx; [discriminate|]. intros Hnil.
  destruct (g x); simpl; [rewrite Hx|]; now apply IH.
Qed.

Lemma filter_sublist {A : Type} (f : A -> bool) (l : list A) :
  sublist (List.filter f l) l.
Proof.
  induction l as [|x l IH]; simpl; [constructor|].
  destruct (f x); now constructor.
Qed.

Lemma filter_true {A : Type} (f : A -> bool) (l : list A) :
  (forall x, f x = true) -> List.filter f l = l.
Proof.
  intros Hf. induction l as [|x l IH]; [reflexivity|]. simpl.
  now rewrite Hf, IH.
Qed.

Lemma exactIdMatch_Some (Q : list Question) t m :
  exactIdMatch Q t = Some m ->
  t <> [] /\ m = List.filter (matchesExactId t) Q /\ m <> [].
Proof.
  unfold exactIdMatch. destruct t as [|c t]; [discriminate|]. simpl truthy.
  cbv iota zeta.
  destruct (List.filter (matchesExactId (c :: t)) Q) as [|q m'] eqn:Hf;
    [discriminate|].
  simpl. intros [= <-]. repeat split; discriminate.
Qed.

Lemma exactIdMatch_None (Q : list Question) t :
  exactIdMatch Q t = None ->
  t = [] \/ List.filter (matchesExactId t) Q = [].
Proof.
  unfold exactIdMatch. destruct t as [|c t]; [now left|]. simpl truthy.
  cbv iota zeta.
  destruct (List.filter (matchesExactId (c :: t)) Q) as [|q m'] eqn:Hf;
    [now right|discriminate].
Qed.

Lemma exactIdMatch_filter_None (Q : list Question) t (g : Question -> bool) :
  exactIdMatch Q t = None -> exactIdMatch (List.filter g Q) t = None.
Proof.
  intros Hnone. apply exactIdMatch_None in Hnone as [->|Hnil]; [reflexivity|].
  unfold exactIdMatch. rewrite (filter_nil_filter _ g _ Hnil).
  now destruct (truthy t).
Qed.

Lemma exactIdMatch_fixed (Q : list Question) t m :
  exactIdMatch Q t = Some m -> exactIdMatch m t = Some m.
Proof.
  intros Hm. apply exactIdMatch_Some in Hm as (Ht & -> & Hne).
  unfold exactIdMatch. rewrite filter_idem.
  destruct t; [now destruct Ht|]. simpl truthy. cbv iota zeta.
  destruct (List.filter _ Q); [now destruct Hne|reflexivity].
Qed.

(** The filter is one of four [List.filter]s of the collection. *)
Lemma filterQuestions_cases (Q : list Question) text ys ss h :
  exists f, filterQuestions Q text ys ss h = List.filter f Q.
Proof.
  unfold filterQuestions.
  destruct (parseQuestionId (trim text)) as [parsed|]; [eauto|].
  destruct (exactIdMatch Q (trim text)) as [m|] eqn:Hm.
  { apply exactIdMatch_Some in Hm as (_ & -> & _). eauto. }
  destruct (parsePartialQuestionId (trim text)); eauto.
Qed.

(** X5.  The filter only ever selects: whatever the search text and the
    restrictions, the result is a sub-list of the collection, the
    questions kept being in their order of the collection. *)
Theorem filterQuestions_sublist (Q : list Question) text
    (selectedYears : list Z) (sessions : list jsstring) (hisshuOnly : bool) :
  sublist (filterQuestions Q text selectedYears sessions hisshuOnly) Q
  /\ (length (filterQuestions Q text selectedYears sessions hisshuOnly)
      <= length Q)%nat.
Proof.
  destruct (filterQuestions_cases Q text selectedYears sessions hisshuOnly)
    as [f ->].
  split; [apply filter_sublist|]. apply sublist_length, filter_sublist.
Qed.

(** X6.  Filtering twice with the same search text and restrictions
    gives what filtering once gives. *)
Theorem filterQuestions_idempotent (Q : list Question) text
    (selectedYears : list Z) (sessions : list jsstring) (hisshuOnly : bool) :
  filterQuestions
    (filterQuestions Q text selectedYears sessions hisshuOnly)
    text selectedYears sessions hisshuOnly
  = filterQuestions Q text selectedYears sessions hisshuOnly.
Proof.
  unfold filterQuestions.
  destruct (parseQuestionId (trim text)) as [parsed|]; [apply filter_idem|].
  destruct (exactIdMatch Q (trim text)) as [m|] eqn:Hm.
  { now rewrite (exactIdMatch_fixed _ _ _ Hm). }
  destruct (parsePartialQuestionId (trim text)) as [partialParsed|];
    rewrite (exactIdMatch_filter_None _ _ _ Hm); apply filter_idem.
Qed.

Lemma parseQuestionId_empty : parseQuestionId [] = None.
Proof. reflexivity. Qed.

Lemma parsePartialQuestionId_empty : parsePartialQuestionId [] = None.
Proof. reflexivity. Qed.

Lemma passesFilters_blank ys ss h q :
  passesFilters [] ys ss h q = true <-> passesStructured ys ss h q.
Proof.
  unfold passesFilters, passesStructured. simpl truthy.
  rewrite <- includesNum_In, <- includesStr_In, <- !nonempty_length.
  destruct h, (isHisshu (year q) (session q) (number q)),
    (0 <? length ys)%nat, (includesNum ys (year q)),
    (0 <? length ss)%nat, (includesStr ss (session q)); simpl;
    split; try easy; intros (? & ? & ?); auto; try discriminate.
Qed.

(** X7.  With a search text that is empty or white space only, the
    filter keeps exactly the questions that pass the core-topic, year and
    session restrictions; with none of them set it returns the
    collection as it is. *)
Theorem filterQuestions_blank_text (Q : list Question) text
    (selectedYears : list Z) (sessions : list jsstring) (hisshuOnly : bool) :
  trim text = [] ->
  (forall q,
      In q (filterQuestions Q text selectedYears sessions hisshuOnly)
      <-> In q Q /\ passesStructured selectedYears sessions hisshuOnly q)
  /\ filterQuestions Q text [] [] false = Q.
Proof.
  intros Htrim.
  assert (Heq : forall ys ss h,
            filterQuestions Q text ys ss h
            = List.filter (passesFilters [] ys ss h) Q).
  { intros ys ss h. unfold filterQuestions.
    now rewrite Htrim, parseQuestionId_empty, parsePartialQuestionId_empty. }
  split.
  - intros q. now rewrite Heq, filter_In, passesFilters_blank.
  - rewrite Heq. now apply filter_true.
Qed.

Lemma parseQuestionId_misses text :
  missesComponent (trim text) -> parseQuestionId text = None.
Proof.
  intros Hmiss. unfold parseQuestionId.
  destruct (matchPieces pattern (trim text)) as [caps|] eqn:Hm; [|reflexivity].
  destruct (pattern_sound _ _ Hm) as (ds1 & l & ds2 & _ & Hform).
  destruct (missesComponent_not_complete _ _ _ _ Hmiss Hform).
Qed.

(** X8.  A search text of the form "year, session" with a year in
    100..130, where no question has the text as its id: the filter
    returns exactly the questions of that year and session, whatever
    else is selected. *)
Theorem filterQuestions_year_session (Q : list Question) text ds l
    (selectedYears : list Z) (sessions : list jsstring) (hisshuOnly : bool) :
  sessionForm (trim text) ds l ->
  100 <= decimalValue ds <= 130 ->
  exactIdMatch Q (trim text) = None ->
  filterQuestions Q text selectedYears sessions hisshuOnly
  = List.filter
      (fun q => (year q =? decimalValue ds)
                && strEq (session q) [asciiUpper l]) Q.
Proof.
  intros Hform Hrange Hexact. unfold filterQuestions.
  rewrite parseQuestionId_trim, parseQuestionId_misses, Hexact.
  2:{ destruct Hform as (sep1 & sep2 & -> & Hd & _ & Hs1 & Hl & Hs2).
      now apply missing_number. }
  rewrite parsePartialQuestionId_trim.
  assert (Hpart : parsePartialQuestionId text
                  = Some {| years := [decimalValue ds];
                            partialSession := Some [asciiUpper l] |}).
  { unfold parsePartialQuestionId.
    rewrite (partialWithSession_form _ _ _ Hform).
    destruct Hrange as [Hlo Hhi]. apply Z.leb_le in Hlo, Hhi.
    now rewrite Hlo, Hhi. }
  rewrite Hpart. apply filter_ext_bool. intros q.
  unfold matchesPartial. simpl. rewrite orb_false_r.
  now rewrite (Z.eqb_sym (decimalValue ds)).
Qed.

(** X9.  A search text of exactly three digits denoting a year in
    100..130, where no question has the text as its id: the filter
    returns exactly the questions of that year, whatever else is
    selected. *)
Theorem filterQuestions_three_digits (Q : list Question) text
    (selectedYears : list Z) (sessions : list jsstring) (hisshuOnly : bool) :
  forallb isDigit (trim text) = true ->
  length (trim text) = 3%nat ->
  100 <= decimalValue (trim text) <= 130 ->
  exactIdMatch Q (trim text) = None ->
  filterQuestions Q text selectedYears sessions hisshuOnly
  = List.filter (fun q => year q =? decimalValue (trim text)) Q.
Proof.
  intros Hd Hlen Hrange Hexact. unfold filterQuestions.
  rewrite parseQuestionId_trim, parseQuestionId_misses, Hexact.
  2:{ rewrite <- (app_nil_r (trim text)).
      now apply (missing_session (trim text) [] []). }
  rewrite parsePartialQuestionId_trim.
  assert (Hpart : parsePartialQuestionId text
                  = Some {| years := [decimalValue (trim text)];
                            partialSession := None |}).
  { unfold parsePartialQuestionId. rewrite (digits_not_sessionForm _ Hd).
    unfold partialYearFull, patternYearFull.
    rewrite (digitsOnly_matches 3 _ Hd Hlen), parseInt_decimal by exact Hd.
    destruct Hrange as [Hlo Hhi]. apply Z.leb_le in Hlo, Hhi.
    now rewrite Hlo, Hhi. }
  rewrite Hpart. apply filter_ext_bool. intros q.
  unfold matchesPartial. simpl. rewrite orb_false_r, andb_true_r.
  apply Z.eqb_sym.
Qed.

(** X10.  A search text that is not blank, is no complete identifier
    and is, but for capitals and small letters, the id of a question of
    the collection (ids and text being ASCII): the filter returns
    exactly the questions whose id is the text but for capitals and
    small letters, that question among them, whatever else is selected
    and even where the text is a partial identifier too. *)
Theorem filterQuestions_exact_id (Q : list Question) text q0
    (selectedYears : list Z) (sessions : list jsstring) (hisshuOnly : bool) :
  parseQuestionId text = None ->
  trim text <> [] ->
  forallb isAscii (trim text) = true ->
  Forall (fun q => forallb isAscii (id q) = true) Q ->
  In q0 Q ->
  CaseSpec.equalIgnoringCase (id q0) (trim text) ->
  filterQuestions Q text selectedYears sessions hisshuOnly
  = List.filter
      (fun q => strEq (toLowerCase (id q)) (toLowerCase (trim text))) Q
  /\ In q0 (filterQuestions Q text selectedYears sessions hisshuOnly)
  /\ (forall q,
        In q (filterQuestions Q text selectedYears sessions hisshuOnly)
        <-> In q Q /\ CaseSpec.equalIgnoringCase (id q) (trim text))
  /\ filterQuestions Q text selectedYears sessions hisshuOnly
     = filterQuestions Q text [] [] false.
Proof.
  intros Hfull Hne Htext Hids Hin Hid.
  rewrite List.Forall_forall in Hids.
  assert (Hspec : forall q, In q Q ->
            matchesExactId (trim text) q = true
            <-> CaseSpec.equalIgnoringCase (id q) (trim text)).
  { intros q Hq. unfold matchesExactId, strEq. rewrite bool_decide_eq_true.
    now apply equalCI_ascii; [apply Hids|]. }
  assert (Hq0 : In q0 (List.filter (matchesExactId (trim text)) Q)).
  { apply filter_In. split; [exact Hin|]. now apply Hspec. }
  assert (Heq : forall ys ss h,
            filterQuestions Q text ys ss h
            = List.filter (matchesExactId (trim text)) Q).
  { intros ys ss h. unfold filterQuestions. rewrite parseQuestionId_trim, Hfull.
    unfold exactIdMatch. destruct (trim text) as [|c t]; [now destruct Hne|].
    simpl truthy. cbv iota zeta.
    destruct (List.filter (matchesExactId (c :: t)) Q); [destruct Hq0|].
    reflexivity. }
  rewrite !Heq. split; [reflexivity|]. split; [exact Hq0|].
  split; [|reflexivity].
  intros q. rewrite filter_In. split.
  - intros [Hq Hm]. split; [exact Hq|]. now apply Hspec.
  - intros [Hq Hm]. split; [exact Hq|]. now apply Hspec.
Qed.

(** ** Core topics *)

(** X11.  The core topics of an exam, among the questions 1 to 100 of
    the sessions A-D, are as many as the comments of [isHisshu] say: 50
    in exam 102, 70 in the exams 103-110, 80 in the exams 111-113 and in
    those from 114 on, and none before 102. *)
Theorem coreCount_by_year (year : Z) :
  coreCount year
  = if year <? 102 then 0%nat
    else if year =? 102 then 50%nat
    else if year <=? 110 then 70%nat
    else 80%nat.
Proof.
  unfold coreCount.
  destruct (year <? 102) eqn:H102.
  { apply Z.ltb_lt in H102.
    rewrite (filter_ext_bool _ (fun _ => false)); [reflexivity|].
    intros sn. unfold isHisshu.
    rewrite (proj2 (Z.eqb_neq year 102)) by lia.
    rewrite (proj2 (Z.leb_gt 103 year)) by lia.
    rewrite (proj2 (Z.leb_gt 111 year)) by lia.
    now rewrite (proj2 (Z.leb_gt 114 year)) by lia. }
  apply Z.ltb_ge in H102.
  destruct (year =? 102) eqn:Heq.
  { apply Z.eqb_eq in Heq. subst year. vm_compute. reflexivity. }
  apply Z.eqb_neq in Heq.
  destruct (year <=? 110) eqn:H110.
  { apply Z.leb_le in H110.
    rewrite (filter_ext_bool _
               (fun sn => (strEq (fst sn) (js "A") || strEq (fst sn) (js "B"))
                          && (1 <=? snd sn) && (snd sn <=? 35))).
    - vm_compute. reflexivity.
    - intros sn. unfold isHisshu.
      rewrite (proj2 (Z.eqb_neq year 102)) by lia.
      rewrite (proj2 (Z.leb_le 103 year)) by lia.
      now rewrite (proj2 (Z.leb_le year 110)) by lia. }
  apply Z.leb_gt in H110.
  destruct (Z.le_gt_cases year 113) as [H113|H113].
  - rewrite (filter_ext_bool _
               (fun sn => (strEq (fst sn) (js "A") || strEq (fst sn) (js "B"))
                          && (1 <=? snd sn) && (snd sn <=? 40))).
    + vm_compute. reflexivity.
    + intros sn. unfold isHisshu.
      rewrite (proj2 (Z.eqb_neq year 102)) by lia.
      rewrite (proj2 (Z.leb_le 103 year)) by lia.
      rewrite (proj2 (Z.leb_gt year 110)) by lia.
      rewrite (proj2 (Z.leb_le 111 year)) by lia.
      now rewrite (proj2 (Z.leb_le year 113)) by lia.
  - rewrite (filter_ext_bool _
               (fun sn => includesStr [js "A"; js "B"; js "C"; js "D"] (fst sn)
                          && (1 <=? snd sn) && (snd sn <=? 20))).
    + vm_compute. reflexivity.
    + intros sn. unfold isHisshu.
      rewrite (proj2 (Z.eqb_neq year 102)) by lia.
      rewrite (proj2 (Z.leb_le 103 year)) by lia.
      rewrite (proj2 (Z.leb_gt year 110)) by lia.
      rewrite (proj2 (Z.leb_le 111 year)) by lia.
      rewrite (proj2 (Z.leb_gt year 113)) by lia.
      now rewrite (proj2 (Z.leb_le 114 year)) by lia.
Qed.

End ServiceMore.

(** * Further properties of the progress store *)

Section ProgressMore.
Import Progress ProgressStorage.

Implicit Types (s : ProgressState) (clk : Clock) (q : jsstring) (b : bool).

(** X12.  Writing the store to storage and reading it back gives the
    store again: every counter, the date, and the set of answered ids,
    which goes through an array on the way; what the store held before
    the reading does not matter. *)
Theorem merge_partialize s (current : ProgressState) :
  merge (Some (partialize s)) current = s.
Proof.
  destruct s as [cs d ls ta tc g tta ttc ids]. unfold merge, partialize.
  simpl. f_equal. apply list_to_set_elements_L.
Qed.

Lemma oneIf_range b : 0 <= oneIf b <= 1.
Proof. destruct b; simpl; lia. Qed.

Lemma step_counters (a : Action) s :
  0 <= totalCorrect s ->
  countersInvariant s -> countersInvariant (step a s).
Proof.
  unfold countersInvariant. intros Hpos (Htoday & Hta & Htc & Htot).
  destruct a as [clk q b| g |clk]; simpl.
  - rewrite recordAnswer_is_recordCounters. simpl.
    pose proof (oneIf_range b).
    destruct (dateIs s (getToday clk)); simpl; lia.
  - auto.
  - destruct (checkAndUpdateStreak_frame clk s)
      as (_ & -> & -> & _ & -> & -> & _). auto.
Qed.

Lemma step_totalCorrect (a : Action) s :
  0 <= totalCorrect s -> 0 <= totalCorrect (step a s).
Proof.
  intros Hpos. destruct a as [clk q b| g |clk]; simpl.
  - rewrite recordAnswer_is_recordCounters. simpl.
    pose proof (oneIf_range b). lia.
  - exact Hpos.
  - destruct (checkAndUpdateStreak_frame clk s)
      as (_ & _ & _ & _ & _ & -> & _). exact Hpos.
Qed.

(** X13.  In every state the store can reach, the counters are
    consistent: today's correct answers are between 0 and today's
    answers, today's counters do not exceed the totals, and the total of
    correct answers does not exceed the total of answers. *)
Theorem reachable_counters s :
  reachable s -> countersInvariant s.
Proof.
  intros Hreach.
  assert (Hboth : 0 <= totalCorrect s /\ countersInvariant s).
  { induction Hreach as [|a s Hreach [Hpos Hinv]].
    - unfold countersInvariant. simpl. lia.
    - split; [now apply step_totalCorrect|now apply step_counters]. }
  apply Hboth.
Qed.

Lemma union_singleton_absorb (X : gset jsstring) q :
  q ∈ X -> X ∪ {[ q ]} = X.
Proof.
  intros Hin. apply set_eq. intros x.
  rewrite elem_of_union, elem_of_singleton.
  split; [intros [Hx| ->]; assumption | now left].
Qed.

Lemma size_union_singleton_le (X : gset jsstring) q :
  (size (X ∪ {[ q ]}) <= S (size X))%nat.
Proof.
  destruct (decide (q ∈ X)) as [Hin|Hnot].
  - rewrite union_singleton_absorb by exact Hin. lia.
  - rewrite size_union by (now apply disjoint_singleton_r).
    rewrite size_singleton. lia.
Qed.

(** X14.  In every state the store can reach, the set of answered ids
    has at most as many elements as answers were recorded in all. *)
Theorem reachable_answered_size s :
  reachable s -> Z.of_nat (size (answeredQuestions s)) <= totalAnswered s.
Proof.
  induction 1 as [|a s Hreach IH];
    [cbn [answeredQuestions totalAnswered initialState];
     rewrite size_empty; lia|].
  destruct a as [clk q b| g |clk]; simpl.
  - rewrite recordAnswer_is_recordCounters. simpl.
    pose proof (size_union_singleton_le (answeredQuestions s) q). lia.
  - exact IH.
  - destruct (checkAndUpdateStreak_frame clk s)
      as (_ & _ & _ & _ & -> & _ & ->). exact IH.
Qed.

(** X15.  A second answer on the same day: after any recorded answer,
    recording another one under the same date raises today's count by
    1, today's correct answers by 1 when it is correct and by 0 when it
    is not, and the total by 1, and for the same question leaves the set
    of answered ids as it is. *)
Theorem recordAnswer_same_day clk q b b' s :
  let s1 := recordAnswer clk q b s in
  let s2 := recordAnswer clk q b' s1 in
  todayAnswered s2 = todayAnswered s1 + 1
  /\ todayCorrect s2 = todayCorrect s1 + (if b' then 1 else 0)
  /\ totalAnswered s2 = totalAnswered s + 2
  /\ answeredQuestions s2 = answeredQuestions s1.
Proof.
  cbv zeta. rewrite !recordAnswer_is_recordCounters.
  assert (Hone : oneIf b' = (if b' then 1 else 0)) by (now destruct b').
  rewrite <- Hone.
  pose proof (recordCounters_today clk q b s) as Htoday.
  assert (Htotal : totalAnswered (recordCounters clk q b s)
                   = totalAnswered s + 1) by reflexivity.
  assert (Hin : q ∈ answeredQuestions (recordCounters clk q b s)).
  { apply elem_of_union_r, elem_of_singleton. reflexivity. }
  set (s1 := recordCounters clk q b s) in *.
  unfold recordCounters. rewrite Htoday.
  cbn [negb todayAnswered todayCorrect totalAnswered answeredQuestions].
  split; [reflexivity|]. split; [reflexivity|]. split; [lia|].
  now apply union_singleton_absorb.
Qed.

(** X16.  The streak check counts calls, not days: on a store last
    dated yesterday, [n] calls of [checkAndUpdateStreak] on the same day
    raise the streak by [n]. *)
Theorem checkAndUpdateStreak_repeated clk s (n : nat) :
  lastStudyDate s = Some (getYesterday clk) ->
  getYesterday clk <> getToday clk ->
  currentStreak (Nat.iter n (checkAndUpdateStreak clk) s)
  = currentStreak s + Z.of_nat n
  /\ lastStudyDate (Nat.iter n (checkAndUpdateStreak clk) s)
     = Some (getYesterday clk).
Proof.
  intros Hy Hne. induction n as [|n [IHc IHd]]; [simpl; split; [lia|exact Hy]|].
  change (Nat.iter (S n) (checkAndUpdateStreak clk) s)
    with (checkAndUpdateStreak clk (Nat.iter n (checkAndUpdateStreak clk) s)).
  destruct (checkAndUpdateStreak_yesterday clk _ IHd Hne) as [Hc _].
  destruct (checkAndUpdateStreak_frame clk
              (Nat.iter n (checkAndUpdateStreak clk) s)) as (Hd & _).
  split; [lia|congruence].
Qed.

End ProgressMore.

(** * Properties of the favorites and of the search history *)

Section ListStores.
Import QuestionService Favorites SearchHistory.

Implicit Types (l : list jsstring) (id x : jsstring).

Lemma strNe_true a b : strNe a b = true <-> a <> b.
Proof.
  unfold strNe, strEq. rewrite negb_true_iff. apply bool_decide_eq_false.
Qed.

Lemma includesStr_false l x : includesStr l x = false <-> ~ In x l.
Proof.
  rewrite <- includesStr_In. destruct (includesStr l x); split; easy.
Qed.

Lemma NoDup_snoc l x : NoDup l -> ~ In x l -> NoDup (l ++ [x]).
Proof.
  induction 1 as [|y l Hy Hl IH]; intros Hx; simpl.
  - constructor; [|constructor]. rewrite list_elem_of_In. intros [].
  - constructor.
    + rewrite list_elem_of_In in Hy |- *. rewrite in_app_iff. simpl.
      intros [Hin|[->|[]]]; [now apply Hy|apply Hx; now left].
    + apply IH. intros Hin. apply Hx. now right.
Qed.

Lemma NoDup_filter_bool (f : jsstring -> bool) l :
  NoDup l -> NoDup (List.filter f l).
Proof.
  induction 1 as [|y l Hy Hl IH]; simpl; [constructor|].
  destruct (f y); [|exact IH]. constructor; [|exact IH].
  rewrite list_elem_of_In in Hy |- *. rewrite filter_In. tauto.
Qed.

Lemma In_filter_ne l id x :
  In x (List.filter (fun fid => strNe fid id) l) <-> In x l /\ x <> id.
Proof. now rewrite filter_In, strNe_true. Qed.

Lemma filter_ne_absent l id :
  ~ In id l -> List.filter (fun fid => strNe fid id) l = l.
Proof.
  induction l as [|y l IH]; intros Hn; [reflexivity|]. simpl.
  assert (Hy : strNe y id = true).
  { apply strNe_true. intros ->. apply Hn. now left. }
  rewrite Hy, IH; [reflexivity|]. intros Hin. apply Hn. now right.
Qed.

Lemma favStep_NoDup (a : FavAction) (s : FavoritesState) :
  NoDup (favoriteIds s) -> NoDup (favoriteIds (favStep a s)).
Proof.
  intros Hs. destruct a as [id|id|id|]; simpl.
  - unfold addFavorite.
    destruct (includesStr (favoriteIds s) id) eqn:Hin; [exact Hs|]. simpl.
    apply NoDup_snoc; [exact Hs|]. now apply includesStr_false.
  - now apply NoDup_filter_bool.
  - unfold toggleFavorite.
    destruct (includesStr (favoriteIds s) id) eqn:Hin; simpl.
    + now apply NoDup_filter_bool.
    + apply NoDup_snoc; [exact Hs|]. now apply includesStr_false.
  - constructor.
Qed.

(** X17.  However favorites are added, removed, toggled and cleared,
    starting from none, no id is ever in the list twice. *)
Theorem favorites_NoDup (acts : list FavAction) :
  NoDup (favoriteIds (favRun acts initialFavorites)).
Proof.
  induction acts as [|a acts IH] using rev_ind; [constructor|].
  unfold favRun in *. rewrite fold_left_app. simpl.
  now apply favStep_NoDup.
Qed.

(** X18.  What [isFavorite] answers after each action: an added id is a
    favorite, a removed one is not, a toggled one is one exactly when it
    was not before; and for every other id the answer stays as it
    was. *)
Theorem isFavorite_after (id : jsstring) (s : FavoritesState) :
  isFavorite id (addFavorite id s) = true
  /\ isFavorite id (removeFavorite id s) = false
  /\ isFavorite id (toggleFavorite id s) = negb (isFavorite id s)
  /\ (forall x, x <> id ->
        isFavorite x (addFavorite id s) = isFavorite x s
        /\ isFavorite x (removeFavorite id s) = isFavorite x s
        /\ isFavorite x (toggleFavorite id s) = isFavorite x s).
Proof.
  assert (Hsnoc : forall x, isFavorite x {| favoriteIds := favoriteIds s ++ [id] |}
                            = isFavorite x s || strEq id x).
  { intros x. unfold isFavorite, includesStr. simpl.
    rewrite existsb_app. simpl. now rewrite orb_false_r. }
  assert (Hrem : forall x,
            isFavorite x (removeFavorite id s)
            = isFavorite x s && negb (strEq x id)).
  { intros x. apply eq_true_iff_eq. unfold isFavorite, removeFavorite. simpl.
    rewrite andb_true_iff, negb_true_iff, !includesStr_In, In_filter_ne.
    unfold strEq. now rewrite bool_decide_eq_false. }
  assert (Hself : strEq id id = true) by (now apply bool_decide_eq_true).
  assert (Hother : forall x, x <> id -> strEq id x = false /\ strEq x id = false).
  { intros x Hx. unfold strEq. split; apply bool_decide_eq_false; congruence. }
  split; [|split; [|split]].
  - unfold addFavorite. destruct (includesStr (favoriteIds s) id) eqn:Hin;
      [exact Hin|]. rewrite Hsnoc, Hself. apply orb_true_r.
  - rewrite Hrem, Hself. apply andb_false_r.
  - unfold toggleFavorite, isFavorite at 2.
    destruct (includesStr (favoriteIds s) id) eqn:Hin.
    + change (isFavorite id (removeFavorite id s) = negb true).
      rewrite Hrem, Hself. apply andb_false_r.
    + rewrite Hsnoc, Hself. apply orb_true_r.
  - intros x Hx. destruct (Hother x Hx) as [H1 H2]. split; [|split].
    + unfold addFavorite. destruct (includesStr (favoriteIds s) id);
        [reflexivity|]. rewrite Hsnoc, H1. apply orb_false_r.
    + rewrite Hrem, H2. apply andb_true_r.
    + unfold toggleFavorite. destruct (includesStr (favoriteIds s) id).
      * change (isFavorite x (removeFavorite id s) = isFavorite x s).
        rewrite Hrem, H2. apply andb_true_r.
      * rewrite Hsnoc, H1. apply orb_false_r.
Qed.

(** X19.  Toggling an id twice: where it was no favorite, the list is
    as before; where it was one, it is a favorite again but at the end
    of the list, the others keeping their order. *)
Theorem toggleFavorite_twice (id : jsstring) (s : FavoritesState) :
  favoriteIds (toggleFavorite id (toggleFavorite id s))
  = if isFavorite id s
    then List.filter (fun fid => strNe fid id) (favoriteIds s) ++ [id]
    else favoriteIds s.
Proof.
  unfold isFavorite, toggleFavorite at 2.
  destruct (includesStr (favoriteIds s) id) eqn:Hin.
  - unfold toggleFavorite. simpl.
    assert (Hout : includesStr
                     (List.filter (fun fid => strNe fid id) (favoriteIds s)) id
                   = false).
    { apply includesStr_false. rewrite In_filter_ne. tauto. }
    now rewrite Hout.
  - unfold toggleFavorite. simpl.
    assert (Hnow : includesStr (favoriteIds s ++ [id]) id = true).
    { apply includesStr_In, in_or_app. right. now left. }
    rewrite Hnow. simpl. rewrite List.filter_app. simpl.
    assert (Hself : strNe id id = false).
    { unfold strNe, strEq. apply negb_false_iff. now apply bool_decide_eq_true. }
    rewrite Hself, app_nil_r. apply filter_ne_absent.
    now apply includesStr_false.
Qed.

(** ** The search history *)

Lemma NoDup_take_list (n : nat) l : NoDup l -> NoDup (take n l).
Proof. intros Hl. exact (sublist_NoDup _ _ Hl (sublist_take l n)). Qed.

Lemma historyStep_invariant (a : HistoryAction) (s : SearchHistoryState) :
  NoDup (history s) /\ (length (history s) <= MAX_HISTORY)%nat ->
  NoDup (history (historyStep a s))
  /\ (length (history (historyStep a s)) <= MAX_HISTORY)%nat.
Proof.
  intros [Hnd Hlen]. destruct a as [k|k|]; simpl.
  - unfold addSearch. destruct (negb (truthy (trim k))); [now split|].
    cbv zeta. cbn [history]. split.
    + apply NoDup_take_list. constructor.
      * rewrite list_elem_of_In, In_filter_ne. tauto.
      * now apply NoDup_filter_bool.
    + rewrite length_take. lia.
  - split; [now apply NoDup_filter_bool|].
    pose proof (sublist_length _ _ (filter_sublist
                  (fun h => strNe h k) (history s))). lia.
  - split; [constructor|lia].
Qed.

(** X20.  However searches are added, removed and cleared, starting
    from an empty history, the history never holds a keyword twice and
    never more than 20 keywords. *)
Theorem history_bounded (acts : list HistoryAction) :
  NoDup (history (historyRun acts {| history := [] |}))
  /\ (length (history (historyRun acts {| history := [] |})) <= 20)%nat.
Proof.
  induction acts as [|a acts IH] using rev_ind.
  - split; [constructor|simpl; lia].
  - unfold historyRun in *. rewrite fold_left_app. simpl.
    now apply historyStep_invariant.
Qed.

Lemma filter_ne_all l id :
  Forall (fun h => h <> id) l -> List.filter (fun h => strNe h id) l = l.
Proof.
  induction 1 as [|y l Hy Hl IH]; [reflexivity|]. simpl.
  now rewrite (proj2 (strNe_true y id) Hy), IH.
Qed.

(** X21.  The latest search comes first, once: after [addSearch] with
    a keyword that is not blank the keyword heads the history, and
    adding the same keyword again right away changes nothing; a blank
    keyword is not added at all. *)
Theorem addSearch_latest_first (keyword : jsstring) (s : SearchHistoryState) :
  addSearch keyword (addSearch keyword s) = addSearch keyword s
  /\ (trim keyword = [] -> addSearch keyword s = s)
  /\ (trim keyword <> [] -> head (history (addSearch keyword s)) = Some keyword).
Proof.
  unfold addSearch. destruct (trim keyword) as [|c t] eqn:Htrim.
  { simpl. repeat split. intros Hne. now destruct Hne. }
  simpl truthy. cbv iota zeta. cbn [negb history].
  split; [|split; [discriminate|reflexivity]].
  f_equal.
  set (f := List.filter (fun h => strNe h keyword) (history s)).
  assert (E1 : take MAX_HISTORY (keyword :: f) = keyword :: take 19 f)
    by reflexivity.
  assert (Hself : strNe keyword keyword = false).
  { unfold strNe, strEq. apply negb_false_iff. now apply bool_decide_eq_true. }
  assert (Hrest : Forall (fun h => h <> keyword) (take 19 f)).
  { apply List.Forall_forall. intros h Hin.
    assert (Hin' : In h f).
    { apply list_elem_of_In.
      eapply elem_of_sublist; [apply list_elem_of_In, Hin|apply sublist_take]. }
    apply In_filter_ne in Hin'. tauto. }
  assert (E2 : List.filter (fun h => strNe h keyword) (keyword :: take 19 f)
               = take 19 f).
  { simpl. rewrite Hself. now apply filter_ne_all. }
  rewrite E1, E2.
  assert (E3 : take MAX_HISTORY (keyword :: take 19 f)
               = keyword :: take 19 (take 19 f)) by reflexivity.
  rewrite E3. now rewrite take_take.
Qed.

End ListStores.

(** * Properties of the application store *)

Section AppStoreFacts.
Import QuestionService Favorites AppStore.
Context `{Host}.
Variable data : list Question.
Variables minYear maxYear : Z.

Implicit Types (s : AppState) (l : list Z).

Lemma insertDesc_perm x l : insertDesc x l ≡ₚ x :: l.
Proof.
  induction l as [|y l IH]; simpl; [reflexivity|].
  destruct (y <? x); [reflexivity|]. rewrite IH. apply perm_swap.
Qed.

Lemma sortDesc_perm l : sortDesc l ≡ₚ l.
Proof.
  induction l as [|x l IH]; simpl; [reflexivity|].
  now rewrite insertDesc_perm, IH.
Qed.

Lemma insertDesc_weak x l : StronglySorted (fun a b : Z => b <= a) l ->
  StronglySorted (fun a b : Z => b <= a) (insertDesc x l).
Proof.
  induction 1 as [|y l Hl IH Hy]; simpl; [repeat constructor|].
  destruct (y <? x) eqn:Hyx.
  - apply Z.ltb_lt in Hyx. constructor; [now constructor|].
    constructor; [lia|]. eapply Forall_impl; [exact Hy|]. simpl. intros z. lia.
  - apply Z.ltb_ge in Hyx. constructor; [exact IH|].
    rewrite insertDesc_perm. now constructor.
Qed.

Lemma sortDesc_weak l :
  StronglySorted (fun a b : Z => b <= a) (sortDesc l).
Proof.
  induction l as [|x l IH]; simpl; [constructor|]. now apply insertDesc_weak.
Qed.

Lemma weak_NoDup_descending l :
  StronglySorted (fun a b : Z => b <= a) l -> NoDup l -> descending l.
Proof.
  unfold descending. induction 1 as [|x l Hl IH Hx]; intros Hnd;
    [constructor|].
  apply NoDup_cons in Hnd as [Hnot Hnd]. constructor; [now apply IH|].
  rewrite Forall_forall in Hx |- *. intros z Hz.
  specialize (Hx z Hz). simpl in Hx.
  assert (z <> x) by (intros ->; contradiction). lia.
Qed.

Lemma descending_NoDup l : descending l -> NoDup l.
Proof.
  unfold descending. induction 1 as [|x l Hl IH Hx]; [constructor|].
  apply NoDup_cons. split; [|exact IH].
  rewrite Forall_forall in Hx. intros Hin. specialize (Hx x Hin). simpl in Hx.
  lia.
Qed.

Lemma descending_filter (f : Z -> bool) l :
  descending l -> descending (List.filter f l).
Proof.
  unfold descending. induction 1 as [|x l Hl IH Hx]; simpl; [constructor|].
  destruct (f x); [|exact IH]. constructor; [exact IH|].
  rewrite List.Forall_forall in Hx |- *. intros z Hz.
  apply filter_In in Hz as [Hz _]. now apply Hx.
Qed.

Lemma descending_unique l1 l2 :
  descending l1 -> descending l2 -> l1 ≡ₚ l2 -> l1 = l2.
Proof.
  apply StronglySorted_unique_strong. intros x1 x2 _ _ H1 H2. lia.
Qed.

Lemma descending_sort_snoc l y :
  descending l -> ~ In y l -> descending (sortDesc (l ++ [y])).
Proof.
  intros Hl Hy. apply weak_NoDup_descending; [apply sortDesc_weak|].
  rewrite sortDesc_perm. apply NoDup_app. split; [now apply descending_NoDup|].
  split; [|apply NoDup_singleton].
  intros x Hx Hxy. apply list_elem_of_singleton in Hxy. subst x.
  apply Hy. now apply list_elem_of_In.
Qed.

Lemma yearsDown_In top (n : nat) y :
  In y (yearsDown top n) <-> top - Z.of_nat n < y <= top.
Proof.
  revert top. induction n as [|n IH]; intros top; simpl yearsDown.
  - simpl. lia.
  - simpl In. rewrite IH. lia.
Qed.

Lemma yearsDown_descending top (n : nat) : descending (yearsDown top n).
Proof.
  unfold descending. revert top. induction n as [|n IH]; intros top;
    simpl; constructor; [apply IH|].
  apply List.Forall_forall. intros z Hz. apply yearsDown_In in Hz. lia.
Qed.

Lemma filterQuestions_blank_all (Q : list Question) text :
  trim text = [] -> filterQuestions Q text [] [] false = Q.
Proof.
  intros Htrim. unfold filterQuestions.
  rewrite Htrim, parseQuestionId_empty, parsePartialQuestionId_empty.
  now apply filter_true.
Qed.

Lemma applyFilter_inSync s : filterInSync (applyFilter s).
Proof. reflexivity. Qed.

(** X22.  In every state the application store can reach, the list of
    questions shown is the filter of the whole corpus under the search
    text, the years and the sessions set at that moment. *)
Theorem app_filter_in_sync (acts : list AppAction) :
  filterInSync (appRun minYear maxYear acts (initialApp data)).
Proof.
  induction acts as [|a acts IH] using rev_ind.
  - unfold filterInSync. simpl. symmetry. now apply filterQuestions_blank_all.
  - unfold appRun in *. rewrite fold_left_app. simpl.
    destruct a; try apply applyFilter_inSync; exact IH.
Qed.

Lemma appStep_descending (a : AppAction) s :
  descending (selectedYears (filter s)) ->
  descending (selectedYears (filter (appStep minYear maxYear a s))).
Proof.
  intros Hs. destruct a as [t|y| | |x|q| |]; simpl; try exact Hs.
  - destruct (includesNum (selectedYears (filter s)) y) eqn:Hin.
    + now apply descending_filter.
    + apply descending_sort_snoc; [exact Hs|].
      rewrite <- includesNum_In, Hin. discriminate.
  - apply yearsDown_descending.
  - constructor.
Qed.

(** X23.  In every state the application store can reach, the selected
    years are strictly descending: sorted from the newest exam down,
    and no year twice. *)
Theorem app_years_descending (acts : list AppAction) :
  descending
    (selectedYears (filter (appRun minYear maxYear acts (initialApp data)))).
Proof.
  induction acts as [|a acts IH] using rev_ind; [constructor|].
  unfold appRun in *. rewrite fold_left_app. simpl.
  now apply appStep_descending.
Qed.

Lemma toggle_years_twice l y :
  descending l ->
  (let l1 := if includesNum l y
             then List.filter (fun z => negb (z =? y)) l
             else sortDesc (l ++ [y]) in
   if includesNum l1 y
   then List.filter (fun z => negb (z =? y)) l1
   else sortDesc (l1 ++ [y])) = l.
Proof.
  intros Hl. cbv zeta.
  assert (Hne : forall l' z, In z (List.filter (fun z => negb (z =? y)) l')
                             <-> In z l' /\ z <> y).
  { intros l' z. rewrite filter_In, negb_true_iff, Z.eqb_neq. tauto. }
  destruct (includesNum l y) eqn:Hin.
  - apply includesNum_In in Hin.
    assert (Hout : includesNum (List.filter (fun z => negb (z =? y)) l) y = false).
    { destruct (includesNum _ y) eqn:Hi; [|reflexivity].
      apply includesNum_In, Hne in Hi. now destruct Hi. }
    rewrite Hout.
    assert (Hnot : ~ In y (List.filter (fun z => negb (z =? y)) l)).
    { rewrite Hne. tauto. }
    apply descending_unique; [|exact Hl|].
    + apply descending_sort_snoc; [now apply descending_filter|exact Hnot].
    + rewrite sortDesc_perm. apply NoDup_Permutation.
      * apply NoDup_app. split; [apply descending_NoDup, descending_filter, Hl|].
        split; [|apply NoDup_singleton].
        intros x Hx Hxy. apply list_elem_of_singleton in Hxy. subst x.
        apply Hnot. now apply list_elem_of_In.
      * now apply descending_NoDup.
      * intros x. rewrite !list_elem_of_In, in_app_iff, Hne. simpl.
        destruct (Z.eq_dec x y) as [->|Hxy]; [tauto|]. split.
        -- intros [[Hx _]|[Heq|[]]]; [exact Hx|congruence].
        -- intros Hx. left. now split.
  - assert (Hnot : ~ In y l) by (rewrite <- includesNum_In, Hin; discriminate).
    assert (Hnow : includesNum (sortDesc (l ++ [y])) y = true).
    { apply includesNum_In, list_elem_of_In. rewrite sortDesc_perm.
      apply list_elem_of_In, in_or_app. right. now left. }
    rewrite Hnow.
    assert (Hd1 : descending (sortDesc (l ++ [y])))
      by (now apply descending_sort_snoc).
    apply descending_unique; [now apply descending_filter|exact Hl|].
    apply NoDup_Permutation.
    + now apply descending_NoDup, descending_filter.
    + now apply descending_NoDup.
    + intros x. rewrite !list_elem_of_In, Hne.
      rewrite <- !list_elem_of_In, sortDesc_perm, !list_elem_of_In, in_app_iff.
      simpl. split.
      * intros [[Hx|[Heq|[]]] Hxy]; [exact Hx|congruence].
      * intros Hx. split; [now left|]. intros ->. contradiction.
Qed.

(** X24.  Toggling a year twice brings the store back to where it was,
    provided the years were strictly descending and the list shown was
    in step with the filter, as they are in every reachable state. *)
Theorem toggleYear_twice (year : Z) s :
  descending (selectedYears (filter s)) ->
  filterInSync s ->
  toggleYear year (toggleYear year s) = s.
Proof.
  intros Hdesc Hsync.
  pose proof (toggle_years_twice _ year Hdesc) as Hyears. cbv zeta in Hyears.
  destruct s as [allQ shown [text ys ss] sel ans].
  unfold filterInSync in Hsync. simpl in *.
  unfold toggleYear, applyFilter, withFilter. simpl.
  rewrite Hyears. now rewrite <- Hsync.
Qed.

(** X25.  After "select all years", under a blank search text and with
    no session selected, the list shown is exactly the questions of the
    corpus whose year lies in the year range of the data. *)
Theorem selectAllYears_shows_range s q :
  minYear <= maxYear ->
  trim (searchText (filter s)) = [] ->
  sessions (filter s) = [] ->
  In q (filteredQuestions (selectAllYears minYear maxYear s))
  <-> In q (allQuestions s) /\ minYear <= year q <= maxYear.
Proof.
  intros Hrange Htrim Hsess. unfold selectAllYears, applyFilter, withFilter.
  simpl. rewrite Hsess. unfold filterQuestions.
  rewrite Htrim, parseQuestionId_empty, parsePartialQuestionId_empty.
  change (exactIdMatch (allQuestions s) []) with (@None (list Question)).
  rewrite filter_In, passesFilters_blank. unfold passesStructured.
  rewrite yearsDown_In.
  assert (Hn : Z.of_nat (Z.to_nat (maxYear - minYear + 1))
               = maxYear - minYear + 1) by lia.
  rewrite Hn. split.
  - intros (Hin & _ & Hy & _). split; [exact Hin|].
    assert (Hne : yearsDown maxYear (Z.to_nat (maxYear - minYear + 1)) <> []).
    { destruct (Z.to_nat (maxYear - minYear + 1)) eqn:Hz; [lia|discriminate]. }
    specialize (Hy Hne). lia.
  - intros (Hin & Hy). split; [exact Hin|]. split; [discriminate|].
    split; [intros _; lia|]. intros Hne. now destruct Hne.
Qed.

End AppStoreFacts.

(** * Properties of the study mode *)

Section StudyModeFacts.
Import QuestionService Progress StudyMode.
Context `{Host}.

Implicit Types (st : StudyState) (selected : gset jsstring).

(** X26.  Where the answer names no choice twice, a selection is judged
    correct exactly when it is the set of the choices the answer names:
    nothing missing, nothing more, and in whatever order the answer
    lists them. *)
Theorem judge_correct_iff (answer : jsstring) selected :
  NoDup (correctAnswers answer) ->
  judge answer selected = true
  <-> selected = list_to_set (correctAnswers answer).
Proof.
  intros Hnd. unfold judge. cbv zeta.
  rewrite andb_true_iff, Nat.eqb_eq, forallb_forall. split.
  - intros [Hlen Hall]. symmetry. apply set_subseteq_size_eq.
    + intros x Hx. apply elem_of_list_to_set, list_elem_of_In in Hx.
      specialize (Hall x Hx). now apply bool_decide_eq_true in Hall.
    + rewrite size_list_to_set by exact Hnd. lia.
  - intros ->. split.
    + now rewrite size_list_to_set.
    + intros x Hx. apply bool_decide_eq_true, elem_of_list_to_set.
      now apply list_elem_of_In.
Qed.

Lemma asciiLower_number_unit (u : N) :
  isNumberUnit u = true -> isAscii u = true /\ asciiLower u = u
  /\ ((97 <=? u) && (u <=? 101))%N = false.
Proof.
  unfold isNumberUnit, isDigit, isAscii, asciiLower.
  rewrite orb_true_iff, andb_true_iff, !N.leb_le, N.eqb_eq. intros Hu.
  assert (Hlt : (u < 65)%N) by lia.
  split; [apply N.ltb_lt; lia|].
  rewrite (proj2 (N.leb_gt 65 u)) by lia.
  rewrite (proj2 (N.leb_gt 97 u)) by lia. split; reflexivity.
Qed.

Lemma correctAnswers_number (answer : jsstring) :
  forallb isNumberUnit answer = true -> correctAnswers answer = [].
Proof.
  intros Hnum. unfold correctAnswers, toLowerCase.
  assert (Hascii : forallb isAscii answer = true).
  { eapply forallb_impl; [|exact Hnum]. intros u Hu.
    now destruct (asciiLower_number_unit u Hu). }
  rewrite Hascii. rewrite forallb_forall in Hnum.
  induction answer as [|u answer IH]; [reflexivity|]. simpl.
  destruct (asciiLower_number_unit u (Hnum u (or_introl eq_refl)))
    as (_ & -> & Hout).
  rewrite Hout. simpl. apply IH.
  - intros x Hx. apply Hnum. now right.
  - simpl in Hascii. now apply andb_true_iff in Hascii as [_ ?].
Qed.

(** X27.  A question whose answer is a number (digits and dots only)
    is never recorded as answered correctly: [handleSubmit] either does
    nothing or records a wrong answer, whatever is selected. *)
Theorem handleSubmit_number_never_correct (clk : Clock) (q : Question) st :
  forallb isNumberUnit (answer q) = true ->
  handleSubmit clk (Some q) st = st
  \/ (isCorrect (handleSubmit clk (Some q) st) = false
      /\ totalCorrect (progress (handleSubmit clk (Some q) st))
         = totalCorrect (progress st)
      /\ totalAnswered (progress (handleSubmit clk (Some q) st))
         = totalAnswered (progress st) + 1).
Proof.
  intros Hnum. unfold handleSubmit.
  destruct (size (selectedChoices st) =? 0)%nat eqn:Hsize; [now left|].
  destruct (isAnswered st); [now left|]. right. simpl.
  assert (Hjudge : judge (answer q) (selectedChoices st) = false).
  { unfold judge. rewrite (correctAnswers_number _ Hnum).
    cbn [length forallb]. rewrite andb_true_r, Nat.eqb_sym. exact Hsize. }
  rewrite Hjudge, recordAnswer_is_recordCounters. simpl.
  repeat split; lia.
Qed.

Lemma click_single (q : Question) (key : jsstring) st :
  choiceCount q = 1 ->
  (size (selectedChoices st) <= 1)%nat ->
  (size (selectedChoices (handleChoiceClick q key st)) <= 1)%nat.
Proof.
  intros Hone Hsize. unfold handleChoiceClick.
  destruct (isAnswered st); [exact Hsize|]. cbn [selectedChoices].
  destruct (bool_decide (key ∈ selectedChoices st)).
  - etransitivity; [|exact Hsize]. apply subseteq_size.
    intros x Hx. now apply elem_of_difference in Hx as [? _].
  - rewrite Hone, Z.eqb_refl, (left_id_L ∅ (∪)), size_singleton. lia.
Qed.

(** X28.  On a question with one choice to select, however the
    choices are clicked, starting from an empty selection, never more
    than one choice is selected. *)
Theorem single_choice_selection (q : Question) (keys : list jsstring) st :
  choiceCount q = 1 ->
  selectedChoices st = ∅ ->
  (size (selectedChoices
           (fold_left (fun st' key => handleChoiceClick q key st') keys st))
   <= 1)%nat.
Proof.
  intros Hone Hempty.
  assert (Hsize : (size (selectedChoices st) <= 1)%nat)
    by (rewrite Hempty, size_empty; lia).
  clear Hempty. revert st Hsize.
  induction keys as [|key keys IH]; intros st Hsize; [exact Hsize|].
  simpl. apply IH. now apply click_single.
Qed.

(** X29.  An answer is recorded once: submitting again, for the same
    question, changes nothing, whatever the clock says by then. *)
Theorem handleSubmit_once (clk clk' : Clock) (currentQuestion : option Question)
    st :
  handleSubmit clk' currentQuestion (handleSubmit clk currentQuestion st)
  = handleSubmit clk currentQuestion st.
Proof.
  destruct currentQuestion as [q|]; [|reflexivity].
  destruct ((size (selectedChoices st) =? 0)%nat || isAnswered st) eqn:Hguard.
  - assert (Hsame : forall c, handleSubmit c (Some q) st = st).
    { intros c. unfold handleSubmit. now rewrite Hguard. }
    now rewrite !Hsame.
  - assert (Hdone : isAnswered (handleSubmit clk (Some q) st) = true).
    { unfold handleSubmit. now rewrite Hguard. }
    unfold handleSubmit at 1. now rewrite Hdone, orb_true_r.
Qed.

End StudyModeFacts.

(** * The further properties at concrete inputs *)

Section MoreExamples.
Import ServiceSpec Progress ProgressStorage AppStore StudyMode Examples.

(** ["112-b"] is exam 112, session B; ["99c"] has the form but not a
    year that exists. *)
Lemma parsePartial_year_session_witness :
  sessionForm (trim (js "112-b")) (js "112") 98
  /\ @parsePartialQuestionId asciiHost (js "112-b")
     = Some {| years := [112]; partialSession := Some (js "B") |}
  /\ sessionForm (trim (js "99c")) (js "99") 99
  /\ @parsePartialQuestionId asciiHost (js "99c") = None.
Proof.
  assert (H1 : sessionForm (trim (js "112-b")) (js "112") 98).
  { exists (js "-"), []. vm_compute. repeat split; try reflexivity; lia. }
  assert (H2 : sessionForm (trim (js "99c")) (js "99") 99).
  { exists [], []. vm_compute. repeat split; try reflexivity; lia. }
  split; [exact H1|]. split.
  - exact (@parsePartial_year_session asciiHost (js "112-b") (js "112") 98 H1).
  - split; [exact H2|].
    exact (@parsePartial_year_session asciiHost (js "99c") (js "99") 99 H2).
Defined.

(** [" 118 "] is exam 118. *)
Lemma parsePartial_three_digits_witness :
  forallb isDigit (trim (js " 118 ")) = true
  /\ length (trim (js " 118 ")) = 3%nat
  /\ @parsePartialQuestionId asciiHost (js " 118 ")
     = Some {| years := [118]; partialSession := None |}.
Proof.
  split; [reflexivity|]. split; [reflexivity|].
  exact (@parsePartial_three_digits asciiHost (js " 118 ") eq_refl eq_refl).
Defined.

(** The answer on ["130 c"]: one year, 130, and the session C. *)
Lemma parsePartial_result_wellformed_witness :
  @parsePartialQuestionId asciiHost (js "130 c")
  = Some {| years := [130]; partialSession := Some (js "C") |}
  /\ Forall (fun y => 100 <= y <= 130) [130]
  /\ In (js "C") [js "A"; js "B"; js "C"; js "D"].
Proof.
  assert (Hp : @parsePartialQuestionId asciiHost (js "130 c")
               = Some {| years := [130]; partialSession := Some (js "C") |})
    by (vm_compute; reflexivity).
  destruct (@parsePartial_result_wellformed asciiHost (js "130 c") _ Hp)
    as (_ & Hyears & Hsess).
  split; [exact Hp|]. split; [exact Hyears|]. exact (Hsess _ eq_refl).
Defined.

(** A search text of three spaces restricts nothing by itself. *)
Lemma filterQuestions_blank_text_witness :
  trim (js "   ") = []
  /\ @filterQuestions asciiHost sampleCorpus (js "   ") [] [] false
     = sampleCorpus
  /\ In q110C3 (@filterQuestions asciiHost sampleCorpus (js "   ") [110] [] false).
Proof.
  destruct (@filterQuestions_blank_text asciiHost sampleCorpus (js "   ")
              [110] [] false eq_refl) as (Hiff & Hall).
  split; [reflexivity|]. split; [exact Hall|].
  apply Hiff. split; [right; right; now left|].
  unfold passesStructured. split; [discriminate|].
  split; [intros _; now left|]. intros Hne. now destruct Hne.
Defined.

(** ["112B"] shows the one question of exam 112, session B. *)
Lemma filterQuestions_year_session_witness :
  sessionForm (trim (js "112B")) (js "112") 66
  /\ @exactIdMatch asciiHost sampleCorpus (trim (js "112B")) = None
  /\ @filterQuestions asciiHost sampleCorpus (js "112B") [105] [js "A"] true
     = [ q112B48 ].
Proof.
  assert (Hform : sessionForm (trim (js "112B")) (js "112") 66).
  { exists [], []. vm_compute. repeat split; try reflexivity; lia. }
  assert (Hrange : 100 <= decimalValue (js "112") <= 130) by (vm_compute; easy).
  assert (Hexact : @exactIdMatch asciiHost sampleCorpus (trim (js "112B")) = None)
    by (vm_compute; reflexivity).
  split; [exact Hform|]. split; [exact Hexact|].
  rewrite (@filterQuestions_year_session asciiHost sampleCorpus (js "112B")
             (js "112") 66 [105] [js "A"] true Hform Hrange Hexact).
  vm_compute. reflexivity.
Defined.

(** ["112"] shows the two questions of exam 112. *)
Lemma filterQuestions_three_digits_witness :
  @exactIdMatch asciiHost sampleCorpus (trim (js "112")) = None
  /\ @filterQuestions asciiHost sampleCorpus (js "112") [105] [js "A"] true
     = [ q112B48; q112A48 ].
Proof.
  assert (Hrange : 100 <= decimalValue (trim (js "112")) <= 130)
    by (vm_compute; easy).
  assert (Hexact : @exactIdMatch asciiHost sampleCorpus (trim (js "112")) = None)
    by (vm_compute; reflexivity).
  split; [exact Hexact|].
  rewrite (@filterQuestions_three_digits asciiHost sampleCorpus (js "112")
             [105] [js "A"] true eq_refl eq_refl Hrange Hexact).
  vm_compute. reflexivity.
Defined.

(** Where a question has the id ["118A"], the search ["118a"] shows
    that question alone, not every question of exam 118, session A; and
    where one has the id ["118"], the search ["118"] shows it alone. *)
Lemma filterQuestions_exact_id_witness :
  @parseQuestionId asciiHost (js "118a") = None
  /\ CaseSpec.equalIgnoringCase (id q118A) (trim (js "118a"))
  /\ id q118A <> trim (js "118a")
  /\ @filterQuestions asciiHost letterCorpus (js "118a") [105] [js "B"] true
     = [ q118A ]
  /\ @filterQuestions asciiHost oddCorpus (js "118") [] [] false = [ q118 ].
Proof.
  assert (Hfull : @parseQuestionId asciiHost (js "118a") = None)
    by (vm_compute; reflexivity).
  assert (Hne : trim (js "118a") <> []) by (vm_compute; discriminate).
  assert (Hids : Forall (fun q => forallb isAscii (id q) = true) letterCorpus)
    by (repeat constructor).
  assert (Hsame : CaseSpec.equalIgnoringCase (id q118A) (trim (js "118a"))).
  { unfold CaseSpec.equalIgnoringCase.
    repeat constructor; unfold CaseSpec.sameLetter; simpl; lia. }
  destruct (@filterQuestions_exact_id asciiHost letterCorpus (js "118a") q118A
              [105] [js "B"] true Hfull Hne eq_refl Hids
              (or_intror (or_introl eq_refl)) Hsame) as (Heq & _).
  assert (Hfull' : @parseQuestionId asciiHost (js "118") = None)
    by (vm_compute; reflexivity).
  assert (Hne' : trim (js "118") <> []) by (vm_compute; discriminate).
  assert (Hids' : Forall (fun q => forallb isAscii (id q) = true) oddCorpus)
    by (repeat constructor).
  assert (Hsame' : CaseSpec.equalIgnoringCase (id q118) (trim (js "118"))).
  { unfold CaseSpec.equalIgnoringCase. repeat constructor; now left. }
  destruct (@filterQuestions_exact_id asciiHost oddCorpus (js "118") q118
              [] [] false Hfull' Hne' eq_refl Hids' (or_introl eq_refl) Hsame')
    as (Heq' & _).
  split; [exact Hfull|]. split; [exact Hsame|].
  split; [vm_compute; discriminate|]. split.
  - rewrite Heq. vm_compute. reflexivity.
  - rewrite Heq'. vm_compute. reflexivity.
Defined.

(** The counters after the session of three days. *)
Lemma reachable_counters_witness :
  reachable (run threeDays initialState)
  /\ countersInvariant (run threeDays initialState).
Proof.
  assert (Hreach : reachable (run threeDays initialState))
    by apply run_reachable.
  split; [exact Hreach|]. exact (reachable_counters _ Hreach).
Defined.

Lemma reachable_answered_size_witness :
  reachable (run threeDays initialState)
  /\ Z.of_nat (size (answeredQuestions (run threeDays initialState))) <= 3.
Proof.
  assert (Hreach : reachable (run threeDays initialState))
    by apply run_reachable.
  split; [exact Hreach|].
  exact (reachable_answered_size _ Hreach).
Defined.

(** Three streak checks on 2024-01-02 turn a streak of 3 into 6. *)
Lemma checkAndUpdateStreak_repeated_witness :
  lastStudyDate midStreak = Some (getYesterday (clockOn day2 day1))
  /\ getYesterday (clockOn day2 day1) <> getToday (clockOn day2 day1)
  /\ currentStreak
       (Nat.iter 3 (checkAndUpdateStreak (clockOn day2 day1)) midStreak) = 6.
Proof.
  assert (Hne : getYesterday (clockOn day2 day1) <> getToday (clockOn day2 day1))
    by (vm_compute; discriminate).
  split; [reflexivity|]. split; [exact Hne|].
  exact (proj1 (checkAndUpdateStreak_repeated (clockOn day2 day1) midStreak 3
                  eq_refl Hne)).
Defined.

(** With 118 and 112 selected, toggling 112 twice changes nothing. *)
Lemma toggleYear_twice_witness :
  descending (selectedYears (filter twoYearsApp))
  /\ @filterInSync asciiHost twoYearsApp
  /\ @toggleYear asciiHost 112 (@toggleYear asciiHost 112 twoYearsApp)
     = twoYearsApp.
Proof.
  assert (Hdesc : descending (selectedYears (filter twoYearsApp))).
  { unfold descending. simpl. repeat constructor; lia. }
  assert (Hsync : @filterInSync asciiHost twoYearsApp)
    by (vm_compute; reflexivity).
  split; [exact Hdesc|]. split; [exact Hsync|].
  exact (@toggleYear_twice asciiHost 112 twoYearsApp Hdesc Hsync).
Defined.

(** With the range 110..118, "select all years" shows 110-C-3 and
    leaves out 105-A-1. *)
Lemma selectAllYears_shows_range_witness :
  In q110C3 (filteredQuestions (@selectAllYears asciiHost 110 118 freshApp))
  /\ ~ In q105A1 (filteredQuestions (@selectAllYears asciiHost 110 118 freshApp)).
Proof.
  assert (Hrange : 110 <= 118) by lia.
  split.
  - apply (@selectAllYears_shows_range asciiHost 110 118 freshApp q110C3
             Hrange eq_refl eq_refl).
    split; [right; right; now left|]. simpl. lia.
  - intros Hin.
    apply (@selectAllYears_shows_range asciiHost 110 118 freshApp q105A1
             Hrange eq_refl eq_refl) in Hin.
    destruct Hin as [_ Hy]. simpl in Hy. lia.
Defined.

(** The answer ["BD"]: the selection of b and d is judged correct. *)
Lemma judge_correct_iff_witness :
  NoDup (@correctAnswers asciiHost (js "BD"))
  /\ @judge asciiHost (js "BD") (list_to_set [js "b"; js "d"]) = true.
Proof.
  assert (Hnd : NoDup (@correctAnswers asciiHost (js "BD"))).
  { change (NoDup [js "b"; js "d"]).
    repeat constructor; rewrite list_elem_of_In; simpl; intuition discriminate. }
  split; [exact Hnd|].
  apply (@judge_correct_iff asciiHost (js "BD") _ Hnd). reflexivity.
Defined.

(** The answer ["12.5"] with the choice a selected: recorded, as
    wrong. *)
Lemma handleSubmit_number_never_correct_witness :
  forallb isNumberUnit (answer qCalc) = true
  /\ isCorrect (@handleSubmit asciiHost (clockOn day1 dec31) (Some qCalc) choseA)
     = false.
Proof.
  split; [reflexivity|].
  destruct (@handleSubmit_number_never_correct asciiHost (clockOn day1 dec31)
              qCalc choseA eq_refl) as [Hsame|(Hwrong & _)].
  - rewrite Hsame. reflexivity.
  - exact Hwrong.
Defined.

(** Four clicks on a question with one choice to select. *)
Lemma single_choice_selection_witness :
  choiceCount q112B48 = 1
  /\ (size (selectedChoices
             (fold_left
                (fun st' key => @handleChoiceClick q112B48 key st')
                [js "a"; js "b"; js "a"; js "c"] nothingChosen)) <= 1)%nat.
Proof.
  split; [reflexivity|].
  exact (single_choice_selection q112B48 [js "a"; js "b"; js "a"; js "c"]
           nothingChosen eq_refl eq_refl).
Defined.

End MoreExamples.
